(** * secator: tracking a Celery task tree (secator/celery_utils.py)

    A shallow embedding of [CeleryData]: the per-task classifier
    [get_task_data], one polling pass [get_all_data], the polling loop
    [poll], the record stream of [iter_results] and the tree walker
    [get_task_ids].

    Python dictionaries with string keys are [gmap string value]; the
    caller's [ids_map] keeps its insertion order and is an association
    list whose entries are the descriptor objects.  The generators are
    modelled by the list of the values they yield, each taken at the
    moment of the [yield], together with the final store and the way the
    generator ended.  The broker is an oracle indexed by the number of
    accesses made so far. *)

From Stdlib Require Import ZArith String List Lia.
From stdpp Require Import base gmap list strings fin_maps pretty.

Local Open Scope string_scope.
Local Open Scope list_scope.
Local Set Warnings "-register-all".

(** ** Values, records and exceptions *)

(** The exceptions the modelled code can raise.  [DecodeError] is
    [kombu.exceptions.DecodeError]; [RemoteError] stands for any other
    exception object found as a task's payload. *)
Inductive exn :=
| DecodeError
| RemoteError (msg : string)
| KeyError (key : string)
| TypeError
| AttributeError.

Global Instance exn_eq_dec : EqDecision exn.
Proof. solve_decision. Defined.

(** An output record (see secator/output_types): the core reads [_type],
    [_source] and, on progress records, [percent]; [_uuid] stands for the
    rest of the record. *)
Record record := mk_record {
  _type : string;
  _source : string;
  percent : Z;
  _uuid : string
}.

(** Values stored in a Python dict. *)
Inductive value :=
| VNone
| VBool (b : bool)
| VInt (z : Z)
| VStr (s : string)
| VRec (r : record)
| VRecords (l : list record).

Abbreviation dict := (gmap string value).

(** Outcome of a call: a returned value or a raised exception. *)
Inductive result (A : Type) :=
| Return (a : A)
| Raise (e : exn).
Arguments Return {A} a.
Arguments Raise {A} e.

(** Python truthiness of a value. *)
Definition truthy (v : value) : bool :=
  match v with
  | VNone => false
  | VBool b => b
  | VInt z => negb (z =? 0)%Z
  | VStr s => negb (s =? "")
  | VRec _ => true
  | VRecords l => match l with [] => false | _ :: _ => true end
  end.

(** [v in ['FAILURE', 'SUCCESS', 'REVOKED']]. *)
Definition in_terminal (v : value) : bool :=
  match v with
  | VStr s => (s =? "FAILURE") || (s =? "SUCCESS") || (s =? "REVOKED")
  | _ => false
  end.

(** [s == v] for a string [s]. *)
Definition str_eq_value (s : string) (v : value) : bool :=
  match v with
  | VStr s' => s =? s'
  | _ => false
  end.

(** ** The broker *)

(** What [res.info] can be: an exception, a list of records, a metadata
    dict, or anything else (typically [None] while the task is pending). *)
Inductive payload :=
| PExc (e : exn)
| PList (l : list record)
| PDict (d : dict)
| POther.

(** Reading an attribute of a remote handle either gives a value or fails
    with a broker decode error. *)
Inductive attr (A : Type) :=
| Got (a : A)
| Fault.
Arguments Got {A} a.
Arguments Fault {A}.

(** The handle [AsyncResult(task_id)] as seen at one access. *)
Record AsyncResult := mk_AsyncResult {
  res_truthy : bool;
  state : attr string;
  info : attr payload
}.

(** The broker answers the [n]-th access for a task identifier. *)
Definition broker := nat -> string -> AsyncResult.

(** The root handle's [ready()] at the [n]-th access. *)
Definition root_ready := nat -> attr bool.

(** ** get_task_data *)

(** [data.update({'state': res.state, 'ready': False, 'results': []})]. *)
Definition set_up_state (st : string) (data : dict) : dict :=
  <["results" := VRecords []]>
    (<["ready" := VBool false]> (<["state" := VStr st]> data)).

(** [[e for e in l if e._type == tag]]. *)
Definition records_of_type (tag : string) (l : list record) : list record :=
  List.filter (fun e => _type e =? tag) l.

(** [len([c for c in info if c._source == name])]. *)
Definition count_source (name : value) (l : list record) : nat :=
  length (List.filter (fun c => str_eq_value (_source c) name) l).

(** Lines 215-226: the ready flag and the progress.  The boolean of the
    result tells whether [data] (true) or [None] (false) is returned. *)
Definition set_ready_and_progress (data : dict) : dict * result bool :=
  match data !! "state" with
  | None => (data, Raise (KeyError "state"))
  | Some st =>
    let ready := in_terminal st in
    let data := <["ready" := VBool ready]> data in
    if ready then (<["progress" := VInt 100]> data, Return true)
    else
      match data !! "results" with
      | None => (data, Raise (KeyError "results"))
      | Some rs =>
        if truthy rs then
          match rs with
          | VRecords l =>
            match last (records_of_type "progress" l) with
            | Some p => (<["progress" := VInt (percent p)]> data, Return true)
            | None => (data, Return true)
            end
          | VStr _ => (data, Raise AttributeError)
          | _ => (data, Raise TypeError)
          end
        else (data, Return true)
      end
  end.

(** Lines 182-226, run on the dict object [data]: the object after the
    call, and what the call returns or raises. *)
Definition get_task_data_body (res : AsyncResult) (data : dict)
  : dict * result bool :=
  if negb (res_truthy res) then (data, Return false)
  else
    match state res with
    | Fault => (data, Raise DecodeError)
    | Got st =>
      let data := set_up_state st data in
      match info res with
      | Fault => (data, Raise DecodeError)
      | Got (PExc e) => (data, Raise e)
      | Got (PList l) =>
        let data := <["results" := VRecords l]> data in
        let errors := records_of_type "error" l in
        match l, data !! "name" with
        | _ :: _, None => (data, Raise (KeyError "name"))
        | _, nm =>
          let data :=
            <["count" := VInt (Z.of_nat (count_source (default VNone nm) l))]>
              data in
          let data :=
            <["state" := VStr (match errors with
                               | [] => "SUCCESS"
                               | _ :: _ => "FAILURE"
                               end)]> data in
          set_ready_and_progress data
        end
      | Got (PDict i) => set_ready_and_progress (i ∪ data)
      | Got POther => set_ready_and_progress data
      end
    end.

(** The snapshot a call returned, when it returned one. *)
Definition returns_snapshot (r : result (option dict)) : bool :=
  match r with
  | Return (Some _) => true
  | _ => false
  end.

Definition returned (r : result (option dict)) : dict :=
  match r with
  | Return (Some d) => d
  | _ => ∅
  end.

(** ** The caller's ids_map *)

(** An insertion-ordered dict from task identifiers to descriptor
    objects. *)
Abbreviation IdsMap := (list (string * dict)).

(** [ids_map.get(k)]. *)
Fixpoint ids_get (m : IdsMap) (k : string) : option dict :=
  match m with
  | [] => None
  | (k', d) :: m' => if k' =? k then Some d else ids_get m' k
  end.

(** The object stored under [k] becomes [d]; nothing happens when [k] is
    not a key. *)
Fixpoint ids_set (m : IdsMap) (k : string) (d : dict) : IdsMap :=
  match m with
  | [] => []
  | (k', d') :: m' =>
    if k' =? k then (k', d) :: m' else (k', d') :: ids_set m' k d
  end.

(** [list(ids_map.keys())]. *)
Definition ids_keys (m : IdsMap) : list string := map fst m.

(** [get_task_data(task_id, ids_map)] at broker access [clock].  The
    object worked on is the descriptor stored in [ids_map] (mutated in
    place), or a fresh empty dict when the identifier is not a key. *)
Definition get_task_data (B : broker) (clock : nat) (task_id : string)
    (ids_map : IdsMap) : IdsMap * result (option dict) :=
  let data := default ∅ (ids_get ids_map task_id) in
  let '(data', r) := get_task_data_body (B clock task_id) data in
  (ids_set ids_map task_id data',
   match r with
   | Return true => Return (Some data')
   | Return false => Return None
   | Raise e => Raise e
   end).

Global Instance record_eq_dec : EqDecision record.
Proof. solve_decision. Defined.

Global Instance value_eq_dec : EqDecision value.
Proof. solve_decision. Defined.

(** ** get_all_data *)

(** The two [yield] statements of [get_all_data]. *)
Inductive yield_site :=
| PerTask      (* line 151 *)
| Aggregate.   (* line 162 *)

Global Instance yield_site_eq_dec : EqDecision yield_site.
Proof. solve_decision. Defined.

(** A yielded dict: the statement that yielded it, the key of [ids_map]
    whose descriptor object it is, and the content of that object at the
    moment of the [yield]. *)
Inductive event :=
| Yield (site : yield_site) (ref : string) (data : dict).

Definition ev_site (e : event) : yield_site :=
  match e with Yield s _ _ => s end.
Definition ev_ref (e : event) : string :=
  match e with Yield _ k _ => k end.
Definition ev_data (e : event) : dict :=
  match e with Yield _ _ d => d end.

(** The object a member of [datas] refers to, read from the store. *)
Definition deref (m : IdsMap) (k : string) : dict :=
  default ∅ (ids_get m k).

(** Whether a value can be used as a dict key. *)
Definition hashable (v : value) : bool :=
  match v with
  | VRec _ | VRecords _ => false
  | _ => true
  end.

(** The arguments of the [debug] call of lines 144-150 are evaluated
    before the call: [data['id']], then [data['full_name']],
    [data['state']] and [data['count']] for the dict display, whose key
    must be hashable.  The call itself changes nothing. *)
Definition poll_debug_args (data : dict) : result unit :=
  match data !! "id" with
  | None => Raise (KeyError "id")
  | Some _ =>
    match data !! "full_name" with
    | None => Raise (KeyError "full_name")
    | Some fn =>
      match data !! "state" with
      | None => Raise (KeyError "state")
      | Some _ =>
        match data !! "count" with
        | None => Raise (KeyError "count")
        | Some _ => if hashable fn then Return tt else Raise TypeError
        end
      end
    end
  end.

(** The loop of lines 140-152.  [datas] holds references (keys) to the
    descriptor objects; a pass that raises keeps what it yielded. *)
Fixpoint poll_tasks (B : broker) (task_ids : list string) (ids_map : IdsMap)
    (clock : nat) (datas : list string)
  : list event * IdsMap * nat * list string * result unit :=
  match task_ids with
  | [] => ([], ids_map, clock, datas, Return tt)
  | task_id :: rest =>
    let '(m', r) := get_task_data B clock task_id ids_map in
    match r with
    | Raise e => ([], m', S clock, datas, Raise e)
    | Return None => poll_tasks B rest m' (S clock) datas
    | Return (Some data) =>
      if bool_decide (data = ∅) then poll_tasks B rest m' (S clock) datas
      else
        match poll_debug_args data with
        | Raise e => ([], m', S clock, datas, Raise e)
        | Return _ =>
          let '(evs, m'', c', ds, r') :=
            poll_tasks B rest m' (S clock) (datas ++ [task_id]) in
          (Yield PerTask task_id data :: evs, m'', c', ds, r')
        end
    end
  end.

(** [i['ready']] as a summand; [get_task_data] always leaves a bool. *)
Definition ready_bit (d : dict) : Z :=
  match d !! "ready" with
  | Some (VBool true) => 1
  | _ => 0
  end.

(** [sum([i['ready'] for i in datas if i])], read from the store. *)
Definition count_finished (m : IdsMap) (datas : list string) : Z :=
  fold_right (fun k acc => (ready_bit (deref m k) + acc)%Z) 0%Z datas.

(** [int(count_finished * 100 / total) if total > 0 else 0]: the
    quotient of two non-negative integers, truncated. *)
Definition percent_of (finished : Z) (total : nat) : Z :=
  if (0 <? Z.of_nat total)%Z then (finished * 100 / Z.of_nat total)%Z
  else 0%Z.

(** One pass of [get_all_data]: the yielded dicts, the store and clock
    after the pass, and whether the pass completed or raised. *)
Definition get_all_data (B : broker) (ids_map : IdsMap) (clock : nat)
  : list event * IdsMap * nat * result unit :=
  let task_ids := ids_keys ids_map in
  let '(evs, m, c, datas, r) := poll_tasks B task_ids ids_map clock [] in
  match r with
  | Raise e => (evs, m, c, Raise e)
  | Return _ =>
    match last datas with
    | None => (evs, m, c, Return tt)
    | Some k =>
      let total := length datas in
      let pct := percent_of (count_finished m datas) total in
      let data := <["progress" := VInt pct]> (deref m k) in
      (evs ++ [Yield Aggregate k data], ids_set m k data, c, Return tt)
    end
  end.

(** ** poll *)

(** How a bounded run of the loop ends: by the [break], by an exception
    leaving the generator, or still looping when the fuel is spent. *)
Inductive poll_end :=
| Finished
| Propagated (e : exn)
| Running.

(** What was yielded so far, followed by the rest of the run. *)
Definition prepend (evs : list event)
    (rest : list event * IdsMap * nat * poll_end)
  : list event * IdsMap * nat * poll_end :=
  let '(evs', m, c, e) := rest in (evs ++ evs', m, c, e).

(** [poll]: each unit of fuel is one iteration of [while True].  The
    [sleep] of the [finally] clause has no effect on the values. *)
Fixpoint poll (fuel : nat) (B : broker) (R : root_ready) (ids_map : IdsMap)
    (clock : nat) : list event * IdsMap * nat * poll_end :=
  match fuel with
  | O => ([], ids_map, clock, Running)
  | S fuel' =>
    let '(ev1, m1, c1, r1) := get_all_data B ids_map clock in
    match r1 with
    | Raise DecodeError => prepend ev1 (poll fuel' B R m1 c1)
    | Raise e => (ev1, m1, c1, Propagated e)
    | Return _ =>
      match R c1 with
      | Fault => prepend ev1 (poll fuel' B R m1 (S c1))
      | Got false => prepend ev1 (poll fuel' B R m1 (S c1))
      | Got true =>
        let '(ev2, m2, c2, r2) := get_all_data B m1 (S c1) in
        match r2 with
        | Raise DecodeError => prepend (ev1 ++ ev2) (poll fuel' B R m2 c2)
        | Raise e => (ev1 ++ ev2, m2, c2, Propagated e)
        | Return _ => (ev1 ++ ev2, m2, c2, Finished)
        end
      end
    end
  end.

(** ** iter_results *)

(** [yield from v]: the items produced, or the error of iterating a
    value that is not iterable. *)
Definition yield_from (v : value) : result (list value) :=
  match v with
  | VRecords l => Return (map VRec l)
  | VStr s => Return (map (fun c => VStr (String c "")) (list_ascii_of_string s))
  | _ => Raise TypeError
  end.

(** [yield from data['results']] for each dict that [poll] yields. *)
Fixpoint merge_results (evs : list event) : list value * result unit :=
  match evs with
  | [] => ([], Return tt)
  | e :: rest =>
    match ev_data e !! "results" with
    | None => ([], Raise (KeyError "results"))
    | Some v =>
      match yield_from v with
      | Raise x => ([], Raise x)
      | Return items =>
        let '(s, r) := merge_results rest in (items ++ s, r)
      end
    end
  end.

(** The record stream of [iter_results] with [print_remote_info=False]
    (the calls to the renderer are not part of the model). *)
Definition iter_results (fuel : nat) (B : broker) (R : root_ready)
    (ids_map : IdsMap) (clock : nat) : list value * poll_end :=
  let '(evs, _, _, e) := poll fuel B R ids_map clock in
  match merge_results evs with
  | (s, Return _) => (s, e)
  | (s, Raise x) => (s, Propagated x)
  end.

(** ** get_task_ids *)

(** The class of a result handle. *)
Inductive handle_class :=
| IsGroupResult
| IsAsyncResult.

(** A result handle: [None], or an object with its class, its [id], its
    truth value as a condition, its [children] attribute (a list, or
    something that is not a list, or a decode error when it is read) and
    its [parent].  A handle shared by several paths of a DAG occurs once
    per path. *)
Inductive handle :=
| HNone
| HNode (cls : handle_class) (id : string) (as_bool : bool)
        (children : attr (option (list handle))) (parent : handle).

(** The truth value of [result.parent] in line 254. *)
Definition handle_truthy (h : handle) : bool :=
  match h with
  | HNone => false
  | HNode _ _ b _ _ => b
  end.

(** [get_task_ids(result, ids)]: the content of the list object [ids]
    after the call.  A decode error is caught by the call in which it
    occurs, which returns at once. *)
Fixpoint get_task_ids (result : handle) (ids : list string) : list string :=
  match result with
  | HNone => ids
  | HNode cls i _ ch p =>
    let ids1 :=
      match cls with
      | IsGroupResult => get_task_ids p ids
      | IsAsyncResult => if bool_decide (i ∈ ids) then ids else ids ++ [i]
      end in
    match ch with
    | Fault => ids1
    | Got c =>
      let ids2 :=
        match c with
        | Some l => fold_left (fun acc child => get_task_ids child acc) l ids1
        | None => ids1
        end in
      if handle_truthy p then get_task_ids p ids2 else ids2
    end
  end.

(** The interpreter state that matters to [get_task_ids]: the list object
    created once, when the [def] is executed, for the default [ids=[]]. *)
Record interp := mk_interp {
  get_task_ids_default : list string
}.

(** The state right after the module is loaded. *)
Definition fresh_interp : interp := mk_interp [].

(** A call [CeleryData.get_task_ids(result)] ([ids = None] here) or
    [CeleryData.get_task_ids(result, ids=l)] ([ids = Some l]): the state
    after the call and the content of the list object the call worked
    on. *)
Definition call_get_task_ids (result : handle) (ids : option (list string))
    (st : interp) : interp * list string :=
  match ids with
  | None =>
    let l := get_task_ids result (get_task_ids_default st) in
    (mk_interp l, l)
  | Some l => (st, get_task_ids result l)
  end.

(** The identifiers of all the single-task handles of a tree. *)
Fixpoint all_ids (h : handle) : list string :=
  match h with
  | HNone => []
  | HNode cls i _ ch p =>
    match cls with IsAsyncResult => [i] | IsGroupResult => [] end ++
    match ch with Got (Some l) => flat_map all_ids l | _ => [] end ++
    all_ids p
  end.

(** A tree without decode errors in which every parent that is present
    counts as true. *)
Fixpoint fault_free (h : handle) : bool :=
  match h with
  | HNone => true
  | HNode _ _ _ ch p =>
    match ch with
    | Fault => false
    | Got (Some l) => forallb fault_free l
    | Got None => true
    end
    && fault_free p
    && match p with HNone => true | HNode _ _ b _ _ => b end
  end.

(** A leaf shared by two paths, a [None] child, and a parent link. *)
Definition shared_leaf : handle :=
  HNode IsAsyncResult "c" true (Got None) HNone.

Definition other_leaf : handle :=
  HNode IsAsyncResult "d" true (Got None) HNone.

Definition sample_dag : handle :=
  HNode IsAsyncResult "a" true
    (Got (Some [shared_leaf; HNone;
                HNode IsAsyncResult "b" true (Got (Some [shared_leaf])) HNone]))
    (HNode IsGroupResult "g" true (Got (Some [shared_leaf])) HNone).

(** ** Statements about snapshots *)

(** [state] is one of the terminal states. *)
Definition terminal_state (d : dict) : Prop :=
  exists s, d !! "state" = Some (VStr s) /\
            s ∈ ["SUCCESS"; "FAILURE"; "REVOKED"].

(** The [ready] flag of a snapshot is set. *)
Definition is_ready (d : dict) : Prop := d !! "ready" = Some (VBool true).

Global Instance is_ready_dec d : Decision (is_ready d).
Proof. unfold is_ready. apply _. Defined.

(** The per-task snapshots among yielded dicts that are ready. *)
Definition ready_snapshots (evs : list event) : list event :=
  filter (fun e => is_ready (ev_data e)) evs.

(** After a pass, every per-task snapshot it yielded still has, in the
    store, the content it was yielded with. *)
Definition snapshots_left_unchanged (evs : list event) (m : IdsMap) : Prop :=
  forall e, In e evs -> ev_site e = PerTask -> deref m (ev_ref e) = ev_data e.

(** Some dict of the pass was yielded as the aggregate. *)
Definition aggregate_emitted (evs : list event) : Prop :=
  Exists (fun e => ev_site e = Aggregate) evs.

(** [progress] is 100 exactly when the snapshot is ready. *)
Definition progress_100_iff_ready (d : dict) : Prop :=
  d !! "progress" = Some (VInt 100) <-> is_ready d.

(** The record [c] originates from the task the descriptor names. *)
Definition from_task (d : dict) (c : record) : Prop :=
  d !! "name" = Some (VStr (_source c)).

(** The record is an error marker. *)
Definition is_error (e : record) : Prop := _type e = "error".

Global Instance from_task_dec d c : Decision (from_task d c).
Proof. unfold from_task. apply _. Defined.

Global Instance is_error_dec e : Decision (is_error e).
Proof. unfold is_error. apply _. Defined.

(** Apart from [state], the descriptor [d'] has the content of [d]. *)
Definition unchanged_except_state (d d' : dict) : Prop :=
  forall key, key <> "state" -> d' !! key = d !! key.

(** The descriptor is marked as failed: state FAILURE and an [error]
    field. *)
Definition marked_failed (d : dict) : Prop :=
  d !! "state" = Some (VStr "FAILURE") /\ is_Some (d !! "error").

(** A bounded run ends by the [break]. *)
Definition finishes (run : list event * IdsMap * nat * poll_end) : Prop :=
  snd run = Finished.

(** The claim that the loop stops after one more pass once the root has
    reported ready: whenever the first pass of an iteration completes and
    the root then reports ready, that iteration is the last one. *)
Definition stops_once_ready (B : broker) (R : root_ready) (m : IdsMap)
    (c : nat) : Prop :=
  forall ev1 m1 c1,
    get_all_data B m c = (ev1, m1, c1, Return tt) ->
    R c1 = Got true ->
    finishes (poll 1 B R m c).

(** ** Sample sessions *)

Definition url1 : record := mk_record "url" "httpx" 0 "u-1".
Definition err1 : record := mk_record "error" "httpx" 0 "e-1".

(** A descriptor as the caller supplies it. *)
Definition descriptor (id name : string) : dict :=
  {[ "id" := VStr id; "name" := VStr name; "full_name" := VStr name;
     "descr" := VStr ""; "state" := VStr "PENDING"; "count" := VInt 0;
     "progress" := VInt 0 ]}.

Definition one_task : IdsMap := [("t1", descriptor "t1" "httpx")].
Definition two_tasks : IdsMap :=
  [("t1", descriptor "t1" "httpx"); ("t2", descriptor "t2" "nmap")].

(** Every access finds the task running and reporting 100 percent. *)
Definition broker_running_100 : broker :=
  fun _ _ => mk_AsyncResult true (Got "RUNNING")
                            (Got (PDict {[ "progress" := VInt 100 ]})).

(** Every access finds the task finished with one record. *)
Definition broker_finished : broker :=
  fun _ _ => mk_AsyncResult true (Got "SUCCESS") (Got (PList [url1])).

(** Every access finds the task finished with a record and an error
    marker. *)
Definition broker_with_error : broker :=
  fun _ _ => mk_AsyncResult true (Got "SUCCESS") (Got (PList [url1; err1])).

(** Every access finds the task failed with an exception as payload. *)
Definition broker_failed : broker :=
  fun _ _ => mk_AsyncResult true (Got "FAILURE")
                            (Got (PExc (RemoteError "boom"))).

(** Every access finds the task pending, without payload. *)
Definition broker_pending : broker :=
  fun _ _ => mk_AsyncResult true (Got "PENDING") (Got POther).

Definition always_ready : root_ready := fun _ => Got true.

(** Task t1 has finished; any other task runs and reports 30 percent. *)
Definition broker_mixed : broker :=
  fun _ k =>
    if k =? "t1" then mk_AsyncResult true (Got "SUCCESS") (Got (PList [url1]))
    else mk_AsyncResult true (Got "RUNNING")
                        (Got (PDict {[ "progress" := VInt 30 ]})).

(** Task t1 has finished; reading the state of any other task fails with
    a decode error. *)
Definition broker_faulty : broker :=
  fun _ k =>
    if k =? "t1" then mk_AsyncResult true (Got "SUCCESS") (Got (PList [url1]))
    else mk_AsyncResult true Fault Fault.

(** The task has finished, but the third access fails with a decode
    error. *)
Definition broker_hiccup : broker :=
  fun n _ =>
    if (n =? 2)%nat then mk_AsyncResult true Fault Fault
    else mk_AsyncResult true (Got "SUCCESS") (Got (PList [url1])).

(** ** The progress renderer *)

(** A call received by the renderer ([rich]'s [Progress]), with the
    keyword arguments it is given.  How the renderer binds them to its own
    parameters is its business. *)
Inductive render_call :=
| AddTask (description : string) (kwargs : dict)
| Update (progress_id : nat) (kwargs : dict).

(** The cache of [init_progress]: a dict from task identifiers to
    renderer handles, in insertion order. *)
Fixpoint cache_get (cache : list (string * nat)) (k : string) : option nat :=
  match cache with
  | [] => None
  | (k', id) :: cache' => if k' =? k then Some id else cache_get cache' k
  end.

(** [cache[k] = id]. *)
Fixpoint cache_set (cache : list (string * nat)) (k : string) (id : nat)
  : list (string * nat) :=
  match cache with
  | [] => [(k, id)]
  | (k', id') :: cache' =>
    if k' =? k then (k', id) :: cache' else (k', id') :: cache_set cache' k id
  end.

(** The text of a value that is looked up as a key and not found. *)
Definition key_text (v : value) : string :=
  match v with
  | VNone => "None"
  | VBool true => "True"
  | VBool false => "False"
  | VInt z => pretty z
  | VStr s => s
  | VRec _ | VRecords _ => ""
  end.

(** [d[v]] for a dict [d] with string keys and any value [v] as key. *)
Definition lookup_value {A} (d : string -> option A) (v : value) : result A :=
  match v with
  | VStr s => match d s with
              | Some a => Return a
              | None => Raise (KeyError s)
              end
  | VRec _ | VRecords _ => Raise TypeError
  | _ => Raise (KeyError (key_text v))
  end.

(** {k: v for k, v in pdata.items() if v}. *)
Definition strip_falsy (pdata : dict) : dict :=
  filter (fun kv => truthy (snd kv) = true) pdata.

Section Renderer.

(** [STATE_COLORS] of secator.definitions, a dict from state names to
    colour names, and the handle [add_task] returns, which depends on the
    calls the renderer has received before. *)
Variable STATE_COLORS : gmap string string.
Variable new_id : list render_call -> nat.

(** f'[{STATE_COLORS[state]}]{state}[/]'. *)
Definition state_label (state : value) : result value :=
  match lookup_value (fun s => STATE_COLORS !! s) state with
  | Raise e => Raise e
  | Return colour =>
    Return (VStr ("[" +:+ colour +:+ "]" +:+ key_text state +:+ "[/]"))
  end.

(** [progress.add_task('', advance=0, **pdata)]: a keyword given twice
    is a TypeError, and the call is not made. *)
Definition add_task (pdata : dict) (log : list render_call)
  : list render_call * result nat :=
  match pdata !! "advance" with
  | Some _ => (log, Raise TypeError)
  | None =>
    (log ++ [AddTask "" (<["advance" := VInt 0]> pdata)], Return (new_id log))
  end.

(** The loop of [init_progress] over [ids_map.items()]. *)
Fixpoint init_progress_loop (items : IdsMap) (log : list render_call)
    (cache : list (string * nat))
  : list render_call * result (list (string * nat)) :=
  match items with
  | [] => (log, Return cache)
  | (task_id, data) :: rest =>
    match data !! "state" with
    | None => (log, Raise (KeyError "state"))
    | Some state =>
      match state_label state with
      | Raise e => (log, Raise e)
      | Return label =>
        let pdata := <["state" := label]> data in
        match add_task pdata log with
        | (log', Raise e) => (log', Raise e)
        | (log', Return id) =>
          init_progress_loop rest log' (cache_set cache task_id id)
        end
      end
    end
  end.

Definition init_progress (ids_map : IdsMap) (log : list render_call)
  : list render_call * result (list (string * nat)) :=
  init_progress_loop ids_map log [].

(** [update_progress(progress, progress_id, data)]. *)
Definition update_progress (progress_id : nat) (data : dict)
    (log : list render_call) : list render_call * result unit :=
  match data !! "state" with
  | None => (log, Raise (KeyError "state"))
  | Some state =>
    match state_label state with
    | Raise e => (log, Raise e)
    | Return label =>
      let pdata := strip_falsy (<["state" := label]> data) in
      let progress_int := pdata !! "progress" in
      let pdata := delete "progress" pdata in
      let log := log ++ [Update progress_id pdata] in
      match progress_int with
      | Some v =>
        if truthy v then
          match pdata !! "advance" with
          | Some _ => (log, Raise TypeError)
          | None =>
            (log ++ [Update progress_id (<["advance" := v]> pdata)],
             Return tt)
          end
        else (log, Return tt)
      | None => (log, Return tt)
      end
    end
  end.

(** The body of the loop of [iter_results] over the dicts of [poll],
    with [print_remote_info] set: the items yielded, the renderer's log,
    and whether the loop body raised. *)
Fixpoint consume (cache : list (string * nat)) (evs : list event)
    (log : list render_call) : list value * list render_call * result unit :=
  match evs with
  | [] => ([], log, Return tt)
  | e :: rest =>
    let data := ev_data e in
    match data !! "results" with
    | None => ([], log, Raise (KeyError "results"))
    | Some v =>
      match yield_from v with
      | Raise x => ([], log, Raise x)
      | Return items =>
        match data !! "id" with
        | None => (items, log, Raise (KeyError "id"))
        | Some task_id =>
          match lookup_value (cache_get cache) task_id with
          | Raise x => (items, log, Raise x)
          | Return progress_id =>
            match update_progress progress_id data log with
            | (log', Raise x) => (items, log', Raise x)
            | (log', Return _) =>
              let '(s, log'', r) := consume cache rest log' in
              (items ++ s, log'', r)
            end
          end
        end
      end
    end
  end.

(** Lines 84-86: [progress.update(progress_id, advance=100)] for every
    value of the cache. *)
Definition force_complete (cache : list (string * nat))
    (log : list render_call) : list render_call :=
  log ++ map (fun kv => Update (snd kv) {[ "advance" := VInt 100 ]}) cache.

(** [iter_results] with [print_remote_info] set, on a fresh renderer:
    the record stream, the calls the renderer received, and how the
    bounded run ended. *)
Definition iter_results_live (fuel : nat) (B : broker) (R : root_ready)
    (ids_map : IdsMap) (clock : nat)
  : list value * list render_call * poll_end :=
  match init_progress ids_map [] with
  | (log, Raise e) => ([], log, Propagated e)
  | (log, Return cache) =>
    let '(evs, _, _, e) := poll fuel B R ids_map clock in
    match consume cache evs log with
    | (s, log', Raise x) => (s, log', Propagated x)
    | (s, log', Return _) =>
      match e with
      | Finished => (s, force_complete cache log', Finished)
      | _ => (s, log', e)
      end
    end
  end.

End Renderer.

(** A table of colours and a renderer that numbers its entries from 0. *)
Definition sample_colors : gmap string string :=
  {[ "PENDING" := "dim yellow3"; "RUNNING" := "bold yellow3";
     "SUCCESS" := "bold green"; "FAILURE" := "bold red";
     "REVOKED" := "bold magenta" ]}.

Definition count_entries (log : list render_call) : nat :=
  length (List.filter (fun c => match c with AddTask _ _ => true | _ => false end)
                      log).

(** ** Further statements *)

(** The keys a consumer of [poll] reads. *)
Definition has_poll_keys (d : dict) : Prop :=
  Forall (fun key => is_Some (d !! key))
         ["id"; "full_name"; "state"; "count"; "ready"; "results"].

(** A yielded dict has the keys a consumer reads, and an aggregate has
    an integer [progress]. *)
Definition well_formed_event (e : event) : Prop :=
  has_poll_keys (ev_data e) /\
  (ev_site e = Aggregate -> exists z, ev_data e !! "progress" = Some (VInt z)).

(** The dicts yielded by a run. *)
Definition events_of (run : list event * IdsMap * nat * poll_end)
  : list event := fst (fst (fst run)).

(** The store after a run. *)
Definition store_of (run : list event * IdsMap * nat * poll_end) : IdsMap :=
  snd (fst (fst run)).


(** The call is an [add_task] whose keyword arguments are those of the
    descriptor, with [state] replaced by a coloured label and
    [advance] 0. *)
Definition entry_for (colors : gmap string string) (d : dict)
    (call : render_call) : Prop :=
  exists fields s colour,
    call = AddTask "" fields /\
    d !! "state" = Some (VStr s) /\ colors !! s = Some colour /\
    fields !! "state" = Some (VStr ("[" +:+ colour +:+ "]" +:+ s +:+ "[/]")) /\
    fields !! "advance" = Some (VInt 0) /\
    (forall key, key <> "state" -> key <> "advance" ->
       fields !! key = d !! key).

(** ** Further sample inputs *)

Definition prog40 : record := mk_record "progress" "httpx" 40 "p-1".
Definition prog70 : record := mk_record "progress" "httpx" 70 "p-2".

(** An ids_map whose only descriptor is empty. *)
Definition bare_task : IdsMap := [("t1", ∅)].

(** The running task reports partial results with two progress records. *)
Definition broker_partial : broker :=
  fun _ _ =>
    mk_AsyncResult true (Got "RUNNING")
      (Got (PDict {[ "results" := VRecords [prog40; url1; prog70; url1] ]})).

(** The broker says RUNNING, the task's own metadata says SUCCESS. *)
Definition broker_meta_state : broker :=
  fun _ _ =>
    mk_AsyncResult true (Got "RUNNING")
      (Got (PDict {[ "state" := VStr "SUCCESS" ]})).

(** No identifier has a handle that counts as true. *)
Definition broker_absent : broker :=
  fun _ _ => mk_AsyncResult false Fault Fault.

(** * Properties *)

(** ** The store *)

Lemma ids_get_set_eq (m : IdsMap) k d d' :
  ids_get m k = Some d -> ids_get (ids_set m k d') k = Some d'.
Proof.
  induction m as [|[k0 d0] m IH]; simpl; [discriminate|].
  destruct (String.eqb_spec k0 k) as [->|Hne]; simpl.
  - now rewrite String.eqb_refl.
  - intros H. apply String.eqb_neq in Hne. rewrite Hne. auto.
Qed.

Lemma ids_get_set_ne (m : IdsMap) k k' d :
  k <> k' -> ids_get (ids_set m k d) k' = ids_get m k'.
Proof.
  intros Hne. induction m as [|[k0 d0] m IH]; simpl; [reflexivity|].
  destruct (String.eqb_spec k0 k) as [->|Hk]; simpl.
  - apply String.eqb_neq in Hne. now rewrite Hne.
  - destruct (k0 =? k'); auto.
Qed.

Lemma ids_keys_set (m : IdsMap) k d : ids_keys (ids_set m k d) = ids_keys m.
Proof.
  unfold ids_keys. induction m as [|[k0 d0] m IH]; simpl; [reflexivity|].
  destruct (k0 =? k); simpl; congruence.
Qed.

Lemma ids_set_same (m : IdsMap) k :
  ids_set m k (deref m k) = m.
Proof.
  unfold deref. induction m as [|[k0 d0] m IH]; simpl; [reflexivity|].
  destruct (k0 =? k); simpl; congruence.
Qed.

Lemma ids_get_is_Some (m : IdsMap) k :
  In k (ids_keys m) -> is_Some (ids_get m k).
Proof.
  unfold ids_keys. induction m as [|[k0 d0] m IH]; simpl; [tauto|].
  intros [->|H].
  - rewrite String.eqb_refl. eauto.
  - destruct (k0 =? k); eauto.
Qed.

Lemma deref_set_eq (m : IdsMap) k d :
  In k (ids_keys m) -> deref (ids_set m k d) k = d.
Proof.
  intros H. destruct (ids_get_is_Some m k H) as [d0 Hd0].
  unfold deref. now rewrite (ids_get_set_eq m k d0 d Hd0).
Qed.

Lemma deref_set_ne (m : IdsMap) k k' d :
  k <> k' -> deref (ids_set m k d) k' = deref m k'.
Proof. intros H. unfold deref. now rewrite ids_get_set_ne. Qed.

Lemma returned_spec r :
  returns_snapshot r = true -> r = Return (Some (returned r)).
Proof. destruct r as [[d|]|e]; simpl; congruence. Qed.

(** ** The classifier *)

(** Lookups through a stack of inserts at literal keys. *)
Ltac map_lookup :=
  repeat first [rewrite lookup_insert_eq | rewrite lookup_insert_ne by done].

(** The keys [set_ready_and_progress] may write. *)
Lemma set_ready_and_progress_frame data data' r key :
  set_ready_and_progress data = (data', r) ->
  key <> "ready" -> key <> "progress" ->
  data' !! key = data !! key.
Proof.
  unfold set_ready_and_progress. intros H Hr Hp.
  destruct (data !! "state") as [st|]; [|congruence].
  destruct (in_terminal st).
  - inversion H; subst. now rewrite !lookup_insert_ne.
  - destruct (<["ready":=VBool false]> data !! "results") as [rs|];
      [|inversion H; subst; now rewrite lookup_insert_ne].
    destruct (truthy rs);
      [|inversion H; subst; now rewrite lookup_insert_ne].
    destruct rs; try (inversion H; subst; now rewrite lookup_insert_ne).
    destruct (last (records_of_type "progress" l));
      inversion H; subst; now rewrite ?lookup_insert_ne.
Qed.

(** What a returning [set_ready_and_progress] leaves in the dict. *)
Lemma set_ready_and_progress_return data data' b :
  set_ready_and_progress data = (data', Return b) ->
  b = true /\
  exists st, data !! "state" = Some st /\
    data' !! "ready" = Some (VBool (in_terminal st)) /\
    (in_terminal st = true -> data' !! "progress" = Some (VInt 100)).
Proof.
  unfold set_ready_and_progress. intros H.
  destruct (data !! "state") as [st|]; [|congruence].
  destruct (in_terminal st) eqn:Et.
  - inversion H; subst. split; [reflexivity|]. exists st.
    split; [reflexivity|]. rewrite Et.
    rewrite lookup_insert_ne by done. rewrite !lookup_insert_eq. auto.
  - assert (Hready : forall d : dict,
        d !! "ready" = Some (VBool false) ->
        exists st0, Some st = Some st0 /\
          d !! "ready" = Some (VBool (in_terminal st0)) /\
          (in_terminal st0 = true -> d !! "progress" = Some (VInt 100))).
    { intros d Hd. exists st. rewrite Et. split; [reflexivity|].
      split; [exact Hd|discriminate]. }
    destruct (<["ready":=VBool false]> data !! "results") as [rs|];
      [|congruence].
    destruct (truthy rs).
    + destruct rs; try congruence.
      destruct (last (records_of_type "progress" l));
        inversion H; subst; (split; [reflexivity|]); apply Hready.
      * rewrite lookup_insert_ne by done. now rewrite lookup_insert_eq.
      * now rewrite lookup_insert_eq.
    + inversion H; subst. split; [reflexivity|]. apply Hready.
      now rewrite lookup_insert_eq.
Qed.

Lemma set_ready_and_progress_terminal data st :
  data !! "state" = Some st -> in_terminal st = true ->
  set_ready_and_progress data =
  (<["progress" := VInt 100]> (<["ready" := VBool true]> data), Return true).
Proof.
  intros Hs Ht. unfold set_ready_and_progress. now rewrite Hs, Ht.
Qed.

(** Every returning path of the body goes through lines 215-226. *)
Lemma get_task_data_body_return res data data' :
  get_task_data_body res data = (data', Return true) ->
  exists d, set_ready_and_progress d = (data', Return true).
Proof.
  unfold get_task_data_body.
  destruct (negb (res_truthy res)); [congruence|].
  destruct (state res) as [st|]; [|congruence].
  destruct (info res) as [[e|l|i|]|]; try congruence; eauto.
  destruct l as [|r l].
  - eauto.
  - destruct (_ !! "name"); [eauto|congruence].
Qed.

Lemma in_terminal_spec st :
  in_terminal st = true <->
  exists s, st = VStr s /\ s ∈ ["SUCCESS"; "FAILURE"; "REVOKED"].
Proof.
  split.
  - destruct st as [| | |s| |]; simpl; try discriminate.
    intros H. exists s. split; [reflexivity|].
    apply orb_true_iff in H as [H|H];
      [apply orb_true_iff in H as [H|H]|];
      apply String.eqb_eq in H; subst; set_solver.
  - intros (s & -> & Hs). simpl.
    repeat (apply elem_of_cons in Hs as [->|Hs]; [reflexivity|]).
    inversion Hs.
Qed.

Lemma records_of_type_nil tag l :
  records_of_type tag l = [] <-> ~ Exists (fun e => _type e = tag) l.
Proof.
  unfold records_of_type. induction l as [|e l IH]; simpl.
  - split; [intros _ H; inversion H|reflexivity].
  - destruct (String.eqb_spec (_type e) tag) as [Heq|Hne].
    + split; [discriminate|]. intros H. exfalso. apply H. now left.
    + rewrite IH. split.
      * intros H H'. inversion H'; subst; tauto.
      * intros H H'. apply H. now right.
Qed.

Lemma count_source_from_task (data : dict) nm l :
  data !! "name" = Some nm ->
  count_source nm l = length (filter (from_task data) l).
Proof.
  intros Hn. unfold count_source, from_task.
  induction l as [|c l IH]; [reflexivity|].
  simpl. rewrite filter_cons.
  destruct (decide (data !! "name" = Some (VStr (_source c)))) as [Hd|Hd].
  - rewrite Hn in Hd. injection Hd as ->. simpl.
    rewrite String.eqb_refl. simpl. f_equal. exact IH.
  - destruct (str_eq_value (_source c) nm) eqn:E; [|exact IH].
    exfalso. apply Hd. rewrite Hn.
    destruct nm; simpl in E; try discriminate.
    apply String.eqb_eq in E. now subst.
Qed.

(** The body on a list payload, with the descriptor's name present or
    nothing to count. *)
Lemma get_task_data_body_list st l (data : dict) :
  l = [] \/ is_Some (data !! "name") ->
  get_task_data_body (mk_AsyncResult true (Got st) (Got (PList l))) data =
  (<["progress" := VInt 100]>
     (<["ready" := VBool true]>
        (<["state" := VStr (match records_of_type "error" l with
                            | [] => "SUCCESS"
                            | _ :: _ => "FAILURE"
                            end)]>
           (<["count" := VInt (Z.of_nat
                (count_source (default VNone (data !! "name")) l))]>
              (<["results" := VRecords l]> (set_up_state st data))))),
   Return true).
Proof.
  intros Hl. unfold get_task_data_body. simpl.
  assert (Hname : (<["results" := VRecords l]> (set_up_state st data))
                    !! "name" = data !! "name").
  { unfold set_up_state. now rewrite !lookup_insert_ne. }
  rewrite Hname.
  assert (Hfin : forall s d, s = "SUCCESS" \/ s = "FAILURE" ->
    set_ready_and_progress (<["state" := VStr s]> d) =
    (<["progress" := VInt 100]>
       (<["ready" := VBool true]> (<["state" := VStr s]> d)), Return true)).
  { intros s d Hs. apply set_ready_and_progress_terminal with (st := VStr s).
    - now rewrite lookup_insert_eq.
    - destruct Hs as [->| ->]; reflexivity. }
  destruct l as [|r l].
  - simpl. apply Hfin. now left.
  - destruct Hl as [Hl|[nm Hnm]]; [discriminate|]. rewrite Hnm.
    apply Hfin. destruct (records_of_type "error" (r :: l)); auto.
Qed.

(** C5: a list payload becomes the snapshot's [results]; [count] is the
    number of records whose [_source] is the descriptor's name; [state]
    is FAILURE when some record has [_type] "error" and SUCCESS
    otherwise; the empty list gives SUCCESS and count 0. *)
Theorem get_task_data_list_payload (B : broker) clock task_id
    (ids_map : IdsMap) st l :
  B clock task_id = mk_AsyncResult true (Got st) (Got (PList l)) ->
  l = [] \/ is_Some (deref ids_map task_id !! "name") ->
  exists data',
    snd (get_task_data B clock task_id ids_map) = Return (Some data') /\
    data' !! "results" = Some (VRecords l) /\
    data' !! "count" =
      Some (VInt (Z.of_nat
        (length (filter (from_task (deref ids_map task_id)) l)))) /\
    data' !! "state" =
      Some (VStr (if bool_decide (Exists is_error l)
                  then "FAILURE" else "SUCCESS")) /\
    (l = [] -> data' !! "state" = Some (VStr "SUCCESS") /\
               data' !! "count" = Some (VInt 0)).
Proof.
  intros HB Hl. unfold get_task_data. rewrite HB.
  fold (deref ids_map task_id).
  rewrite (get_task_data_body_list st l _ Hl). simpl.
  eexists. split; [reflexivity|].
  assert (Hst : (match records_of_type "error" l with
                 | [] => "SUCCESS" | _ :: _ => "FAILURE" end) =
                (if bool_decide (Exists is_error l)
                 then "FAILURE" else "SUCCESS")).
  { destruct (records_of_type "error" l) eqn:E.
    - apply records_of_type_nil in E. now rewrite bool_decide_eq_false_2.
    - rewrite bool_decide_eq_true_2; [reflexivity|].
      destruct (decide (Exists is_error l)) as [|Hn]; [assumption|].
      apply records_of_type_nil in Hn. congruence. }
  assert (Hcount : Z.of_nat
            (count_source (default VNone (deref ids_map task_id !! "name")) l) =
          Z.of_nat (length (filter (from_task (deref ids_map task_id)) l))).
  { destruct Hl as [->|[nm Hnm]]; [reflexivity|].
    rewrite Hnm. simpl. f_equal. now apply count_source_from_task. }
  rewrite Hst, Hcount.
  repeat split; try subst l; map_lookup; reflexivity.
Qed.

Lemma get_task_data_list_payload_witness :
  broker_finished 0 "t1" =
    mk_AsyncResult true (Got "SUCCESS") (Got (PList [url1])) /\
  ([url1] = [] \/ is_Some (deref one_task "t1" !! "name")) /\
  exists data',
    snd (get_task_data broker_finished 0 "t1" one_task) = Return (Some data') /\
    data' !! "results" = Some (VRecords [url1]) /\
    data' !! "count" = Some (VInt 1) /\
    data' !! "state" = Some (VStr "SUCCESS").
Proof.
  destruct (get_task_data_list_payload broker_finished 0 "t1" one_task
              "SUCCESS" [url1] eq_refl) as (d & H1 & H2 & H3 & H4 & _).
  - right. vm_compute. eauto.
  - split; [reflexivity|]. split; [right; vm_compute; eauto|].
    exists d. repeat split; assumption.
Defined.

(** A payload with one record flagged as an error gives FAILURE, and
    both records count for the task. *)
Example get_task_data_error_record :
  returned (snd (get_task_data broker_with_error 0 "t1" one_task)) !! "state"
    = Some (VStr "FAILURE") /\
  returned (snd (get_task_data broker_with_error 0 "t1" one_task)) !! "count"
    = Some (VInt 2).
Proof. split; vm_compute; reflexivity. Qed.

(** C2: a snapshot returned by [get_task_data] has a boolean [ready]
    flag that is true exactly when [state] is SUCCESS, FAILURE or
    REVOKED, and a ready snapshot has [progress] 100. *)
Theorem get_task_data_ready_progress (B : broker) clock task_id
    (ids_map m' : IdsMap) data' :
  get_task_data B clock task_id ids_map = (m', Return (Some data')) ->
  (exists b, data' !! "ready" = Some (VBool b)) /\
  (is_ready data' <-> terminal_state data') /\
  (is_ready data' -> data' !! "progress" = Some (VInt 100)).
Proof.
  unfold get_task_data.
  destruct (get_task_data_body _ _) as [d [[|]|e]] eqn:Hb; try congruence.
  intros H. inversion H; subst. clear H.
  apply get_task_data_body_return in Hb as [d0 Hd0].
  pose proof (set_ready_and_progress_frame _ _ _ "state" Hd0) as Hst.
  apply set_ready_and_progress_return in Hd0 as (_ & st & Hs & Hr & Hp).
  rewrite Hs in Hst. unfold is_ready, terminal_state.
  split; [eauto|]. rewrite Hr, Hst by done. split.
  - split.
    + intros Heq. injection Heq as Heq.
      apply in_terminal_spec in Heq as (s & -> & Hin). eauto.
    + intros (s & Heq & Hin). injection Heq as ->.
      f_equal. f_equal. apply in_terminal_spec. eauto.
  - intros Heq. injection Heq as Heq. auto.
Qed.

Lemma get_task_data_ready_progress_witness :
  returns_snapshot (snd (get_task_data broker_finished 0 "t1" one_task)) = true /\
  is_ready (returned (snd (get_task_data broker_finished 0 "t1" one_task))).
Proof.
  assert (Hs : returns_snapshot
                 (snd (get_task_data broker_finished 0 "t1" one_task)) = true)
    by (vm_compute; reflexivity).
  assert (Hst : returned (snd (get_task_data broker_finished 0 "t1" one_task))
                  !! "state" = Some (VStr "SUCCESS"))
    by (vm_compute; reflexivity).
  split; [exact Hs|].
  destruct (get_task_data broker_finished 0 "t1" one_task) as [m' r] eqn:E.
  simpl in *. rewrite (returned_spec r Hs) in E.
  apply (get_task_data_ready_progress _ _ _ _ _ _ E).
  exists "SUCCESS". split; [exact Hst|].
  apply elem_of_cons. now left.
Defined.

(** C2, the part that fails: a running task whose metadata reports 100
    percent gives a snapshot with [progress] 100 that is not ready. *)
Lemma progress_100_without_ready :
  returns_snapshot
    (snd (get_task_data broker_running_100 0 "t1" one_task)) = true /\
  ~ progress_100_iff_ready
      (returned (snd (get_task_data broker_running_100 0 "t1" one_task))).
Proof.
  split; [vm_compute; reflexivity|].
  intros [H _].
  assert (Hp : returned (snd (get_task_data broker_running_100 0 "t1" one_task))
                 !! "progress" = Some (VInt 100))
    by (vm_compute; reflexivity).
  apply H in Hp. unfold is_ready in Hp. vm_compute in Hp. discriminate.
Qed.

Lemma ids_set_absent (m : IdsMap) k d : ids_get m k = None -> ids_set m k d = m.
Proof.
  induction m as [|[k0 d0] m IH]; simpl; [reflexivity|].
  destruct (k0 =? k); [discriminate|]. intros H. now rewrite IH.
Qed.

Lemma set_up_state_frame st (data : dict) key :
  key <> "state" -> key <> "ready" -> key <> "results" ->
  set_up_state st data !! key = data !! key.
Proof. intros. unfold set_up_state. now rewrite !lookup_insert_ne. Qed.

(** The keys the body may write on the object it works on. *)
Lemma get_task_data_body_frame res (data data' : dict) r key :
  get_task_data_body res data = (data', r) ->
  key ∉ ["state"; "ready"; "results"; "count"; "progress"] ->
  (forall i, info res = Got (PDict i) -> i !! key = None) ->
  data' !! key = data !! key.
Proof.
  intros H Hk Hi.
  assert (key <> "state" /\ key <> "ready" /\ key <> "results" /\
          key <> "count" /\ key <> "progress") as (K1 & K2 & K3 & K4 & K5).
  { repeat split; intros ->; apply Hk; set_solver. }
  unfold get_task_data_body in H.
  destruct (negb (res_truthy res)); [now inversion H|].
  destruct (state res) as [st|]; [|now inversion H].
  destruct (info res) as [[e|l|i|]|].
  - inversion H; subst. now apply set_up_state_frame.
  - assert (Hcont : forall n s,
      set_ready_and_progress
        (<["state" := VStr s]> (<["count" := VInt n]>
           (<["results" := VRecords l]> (set_up_state st data)))) = (data', r) ->
      data' !! key = data !! key).
    { intros n s Hs.
      rewrite (set_ready_and_progress_frame _ _ _ key Hs K2 K5).
      rewrite !lookup_insert_ne by done. now apply set_up_state_frame. }
    destruct l as [|c l]; [eapply Hcont; eauto|].
    destruct (_ !! "name"); [eapply Hcont; eauto|].
    inversion H; subst. rewrite lookup_insert_ne by done.
    now apply set_up_state_frame.
  - rewrite (set_ready_and_progress_frame _ _ _ key H K2 K5).
    rewrite lookup_union_r by (now apply Hi).
    now apply set_up_state_frame.
  - rewrite (set_ready_and_progress_frame _ _ _ key H K2 K5).
    now apply set_up_state_frame.
  - inversion H; subst. now apply set_up_state_frame.
Qed.

(** C9, as the code has it: [get_task_data] works on the descriptor
    object itself.  The descriptors of the other identifiers and the key
    order are left as they were; in the polled descriptor every key other
    than [state], [ready], [results], [count], [progress] and the keys of
    a metadata payload keeps its value. *)
Theorem get_task_data_frame (B : broker) clock task_id (ids_map m' : IdsMap) r :
  get_task_data B clock task_id ids_map = (m', r) ->
  ids_keys m' = ids_keys ids_map /\
  (forall k, k <> task_id -> ids_get m' k = ids_get ids_map k) /\
  (forall key,
     key ∉ ["state"; "ready"; "results"; "count"; "progress"] ->
     (forall i, info (B clock task_id) = Got (PDict i) -> i !! key = None) ->
     deref m' task_id !! key = deref ids_map task_id !! key).
Proof.
  unfold get_task_data.
  destruct (get_task_data_body _ _) as [d r0] eqn:Hb.
  intros H. inversion H; subst. clear H.
  split; [apply ids_keys_set|].
  split; [intros k Hk; now apply ids_get_set_ne|].
  intros key Hk Hi. fold (deref ids_map task_id) in Hb.
  destruct (ids_get ids_map task_id) as [d0|] eqn:Hg.
  - unfold deref at 1. rewrite (ids_get_set_eq _ _ _ d Hg). simpl.
    eapply get_task_data_body_frame; eauto.
  - now rewrite ids_set_absent.
Qed.

Lemma get_task_data_frame_witness :
  deref (fst (get_task_data broker_pending 0 "t1" one_task)) "t1" !! "name" =
  Some (VStr "httpx").
Proof.
  destruct (get_task_data_frame broker_pending 0 "t1" one_task
              (fst (get_task_data broker_pending 0 "t1" one_task))
              (snd (get_task_data broker_pending 0 "t1" one_task)))
    as (_ & _ & H).
  - apply surjective_pairing.
  - rewrite (H "name").
    + vm_compute. reflexivity.
    + intros Hin.
      repeat (apply elem_of_cons in Hin as [Hin|Hin]; [discriminate|]).
      inversion Hin.
    + intros i Hi. vm_compute in Hi. discriminate.
Defined.

(** C9, as stated, fails: polling a pending task adds the keys [ready]
    and [results] to the caller's descriptor. *)
Lemma descriptor_gets_ready_key :
  ~ unchanged_except_state
      (deref one_task "t1")
      (deref (fst (get_task_data broker_pending 0 "t1" one_task)) "t1").
Proof.
  intros H. specialize (H "ready" ltac:(discriminate)).
  vm_compute in H. discriminate.
Qed.

(** ** One pass *)

Lemma get_task_data_keys (B : broker) c k (m m' : IdsMap) r :
  get_task_data B c k m = (m', r) -> ids_keys m' = ids_keys m.
Proof.
  unfold get_task_data. destruct (get_task_data_body _ _) as [d r0].
  intros H. injection H as <- _. apply ids_keys_set.
Qed.

Lemma get_task_data_other (B : broker) c k (m m' : IdsMap) r k' :
  get_task_data B c k m = (m', r) -> k <> k' -> deref m' k' = deref m k'.
Proof.
  unfold get_task_data. destruct (get_task_data_body _ _) as [d r0].
  intros H Hne. injection H as <- _. now apply deref_set_ne.
Qed.

(** A call that returns [None] has not touched the store. *)
Lemma get_task_data_None (B : broker) c k (m m' : IdsMap) :
  get_task_data B c k m = (m', Return None) -> m' = m.
Proof.
  unfold get_task_data.
  destruct (get_task_data_body _ _) as [d [[|]|e]] eqn:Hb; try congruence.
  intros H. injection H as <-.
  unfold get_task_data_body in Hb.
  destruct (negb (res_truthy _)).
  - injection Hb as <-. apply ids_set_same.
  - exfalso. destruct (state _) as [st|]; [|congruence].
    destruct (info _) as [[e|l|i|]|]; try congruence;
      try (apply set_ready_and_progress_return in Hb as [? _]; congruence).
    destruct l as [|r l];
      [apply set_ready_and_progress_return in Hb as [? _]; congruence|].
    destruct (_ !! "name"); [|congruence].
    apply set_ready_and_progress_return in Hb as [? _]; congruence.
Qed.

(** A returned snapshot is the polled descriptor object, and is not
    empty. *)
Lemma get_task_data_Some (B : broker) c k (m m' : IdsMap) d :
  get_task_data B c k m = (m', Return (Some d)) ->
  d <> ∅ /\ (In k (ids_keys m) -> deref m' k = d).
Proof.
  unfold get_task_data.
  destruct (get_task_data_body _ _) as [d' [[|]|e]] eqn:Hb; try congruence.
  intros H. injection H as <- <-. split.
  - apply get_task_data_body_return in Hb as [d0 Hd0].
    apply set_ready_and_progress_return in Hd0 as (_ & st & _ & Hr & _).
    intros ->. rewrite lookup_empty in Hr. discriminate.
  - intros Hin. now apply deref_set_eq.
Qed.

(** The shape of what the loop of a pass produces, however it ends. *)
Lemma poll_tasks_shape (B : broker) ids :
  forall (m : IdsMap) c datas evs m' c' ds r,
  poll_tasks B ids m c datas = (evs, m', c', ds, r) ->
  ds = datas ++ map ev_ref evs /\
  Forall (fun e => ev_site e = PerTask) evs /\
  ids_keys m' = ids_keys m /\
  (forall e, In e evs -> In (ev_ref e) ids) /\
  (forall k, ~ In k ids -> deref m' k = deref m k).
Proof.
  induction ids as [|k ids IH]; intros m c datas evs m' c' ds r H; simpl in H.
  - injection H as <- <- <- <- <-. rewrite app_nil_r.
    repeat split; auto; try (intros ? []).
  - destruct (get_task_data B c k m) as [m1 r1] eqn:Hg.
    pose proof (get_task_data_keys _ _ _ _ _ _ Hg) as Hk.
    assert (Hfr : forall k', ~ In k' (k :: ids) -> deref m1 k' = deref m k').
    { intros k' Hn. eapply get_task_data_other; eauto.
      intros ->. apply Hn. now left. }
    assert (Hskip : poll_tasks B ids m1 (S c) datas = (evs, m', c', ds, r) ->
      ds = datas ++ map ev_ref evs /\
      Forall (fun e => ev_site e = PerTask) evs /\
      ids_keys m' = ids_keys m /\
      (forall e, In e evs -> In (ev_ref e) (k :: ids)) /\
      (forall k', ~ In k' (k :: ids) -> deref m' k' = deref m k')).
    { intros H'. apply IH in H' as (H1 & H2 & H3 & H4 & H5).
      repeat split; auto; [congruence|intros; right; auto|].
      intros k' Hn. rewrite H5 by (intros ?; apply Hn; now right). auto. }
    destruct r1 as [[d|]|e].
    + destruct (bool_decide (d = ∅)); [auto|].
      destruct (poll_debug_args d).
      * destruct (poll_tasks B ids m1 (S c) (datas ++ [k]))
          as [[[[evs2 m2] c2] ds2] r2] eqn:Hrest.
        injection H as <- <- <- <- <-.
        apply IH in Hrest as (H1 & H2 & H3 & H4 & H5).
        repeat split.
        -- rewrite H1. simpl. now rewrite <- app_assoc.
        -- constructor; auto.
        -- congruence.
        -- intros e [<-|He]; [now left|right; auto].
        -- intros k' Hn. rewrite H5 by (intros ?; apply Hn; now right). auto.
      * injection H as <- <- <- <- <-. rewrite app_nil_r.
        repeat split; auto; try (intros ? []).
    + auto.
    + injection H as <- <- <- <- <-. rewrite app_nil_r.
      repeat split; auto; try (intros ? []).
Qed.

(** A completed loop that yielded nothing has not touched the store. *)
Lemma poll_tasks_silent (B : broker) ids :
  forall (m : IdsMap) c datas m' c' ds,
  poll_tasks B ids m c datas = ([], m', c', ds, Return tt) -> m' = m.
Proof.
  induction ids as [|k ids IH]; intros m c datas m' c' ds H; simpl in H.
  - congruence.
  - destruct (get_task_data B c k m) as [m1 r1] eqn:Hg.
    destruct r1 as [[d|]|e]; [| |congruence].
    + apply get_task_data_Some in Hg as [Hne _].
      rewrite bool_decide_eq_false_2 in H by assumption.
      destruct (poll_debug_args d); [|congruence].
      destruct (poll_tasks B ids m1 (S c) (datas ++ [k]))
        as [[[[evs2 m2] c2] ds2] r2]. congruence.
    + apply get_task_data_None in Hg as ->. eauto.
Qed.

(** After a completed loop the object of the last yield still has the
    content it was yielded with. *)
Lemma poll_tasks_last (B : broker) ids :
  forall (m : IdsMap) c datas evs e m' c' ds,
  poll_tasks B ids m c datas = (evs ++ [e], m', c', ds, Return tt) ->
  (forall k, In k ids -> In k (ids_keys m)) ->
  deref m' (ev_ref e) = ev_data e.
Proof.
  induction ids as [|k ids IH]; intros m c datas evs e m' c' ds H Hin;
    simpl in H.
  - injection H as H _. now destruct evs.
  - destruct (get_task_data B c k m) as [m1 r1] eqn:Hg.
    pose proof (get_task_data_keys _ _ _ _ _ _ Hg) as Hk.
    assert (Hin' : forall k0, In k0 ids -> In k0 (ids_keys m1)).
    { intros k0 H0. rewrite Hk. apply Hin. now right. }
    destruct r1 as [[d|]|x]; [| |congruence].
    + apply get_task_data_Some in Hg as [Hne Hd].
      rewrite bool_decide_eq_false_2 in H by assumption.
      destruct (poll_debug_args d); [|congruence].
      destruct (poll_tasks B ids m1 (S c) (datas ++ [k]))
        as [[[[evs2 m2] c2] ds2] r2] eqn:Hrest.
      injection H as He <- <- <- ->.
      destruct evs as [|e0 evs].
      * simpl in He. injection He as <- ->.
        apply poll_tasks_silent in Hrest as ->. simpl.
        apply Hd, Hin. now left.
      * simpl in He. injection He as _ ->. eauto.
    + eauto.
Qed.

(** With distinct identifiers, each yielded dict keeps in the store the
    content it was yielded with, and no object is yielded twice. *)
Lemma poll_tasks_snapshots (B : broker) ids :
  forall (m : IdsMap) c datas evs m' c' ds r,
  poll_tasks B ids m c datas = (evs, m', c', ds, r) ->
  List.NoDup ids ->
  (forall k, In k ids -> In k (ids_keys m)) ->
  List.NoDup (map ev_ref evs) /\
  (forall e, In e evs -> deref m' (ev_ref e) = ev_data e).
Proof.
  induction ids as [|k ids IH]; intros m c datas evs m' c' ds r H Hnd Hin;
    simpl in H.
  - injection H as <- _ _ _ _. split; [constructor|intros ? []].
  - apply List.NoDup_cons_iff in Hnd as [Hk Hnd].
    destruct (get_task_data B c k m) as [m1 r1] eqn:Hg.
    pose proof (get_task_data_keys _ _ _ _ _ _ Hg) as Hkeys.
    assert (Hin' : forall k0, In k0 ids -> In k0 (ids_keys m1)).
    { intros k0 H0. rewrite Hkeys. apply Hin. now right. }
    destruct r1 as [[d|]|x].
    + apply get_task_data_Some in Hg as [Hne Hd].
      rewrite bool_decide_eq_false_2 in H by assumption.
      destruct (poll_debug_args d).
      * destruct (poll_tasks B ids m1 (S c) (datas ++ [k]))
          as [[[[evs2 m2] c2] ds2] r2] eqn:Hrest.
        injection H as <- <- <- <- <-.
        pose proof (poll_tasks_shape _ _ _ _ _ _ _ _ _ _ Hrest)
          as (_ & _ & _ & Href & Hfr).
        apply IH in Hrest as [Hnd2 Hsn]; auto.
        split.
        -- simpl. constructor; [|assumption].
           intros Hi. apply in_map_iff in Hi as (e & <- & He). auto.
        -- intros e [<-|He]; [|auto]. simpl.
           rewrite Hfr by assumption. apply Hd, Hin. now left.
      * injection H as <- _ _ _ _. split; [constructor|intros ? []].
    + eauto.
    + injection H as <- _ _ _ _. split; [constructor|intros ? []].
Qed.

(** The loop over a list of identifiers runs its first part, then the
    rest. *)
Lemma poll_tasks_app (B : broker) pre post :
  forall (m : IdsMap) c datas evs m1 c1 ds,
  poll_tasks B pre m c datas = (evs, m1, c1, ds, Return tt) ->
  poll_tasks B (pre ++ post) m c datas =
  let '(evs2, m2, c2, ds2, r) := poll_tasks B post m1 c1 ds in
  (evs ++ evs2, m2, c2, ds2, r).
Proof.
  induction pre as [|k pre IH]; intros m c datas evs m1 c1 ds H; simpl in H.
  - injection H as <- <- <- <-. simpl.
    now destruct (poll_tasks B post m c datas) as [[[[? ?] ?] ?] ?].
  - simpl. destruct (get_task_data B c k m) as [m0 r0].
    destruct r0 as [[d|]|x]; [| |congruence].
    + destruct (bool_decide (d = ∅)); [eauto|].
      destruct (poll_debug_args d); [|congruence].
      destruct (poll_tasks B pre m0 (S c) (datas ++ [k]))
        as [[[[evs2 m2] c2] ds2] r2] eqn:Hrest.
      injection H as <- <- <- <- ->.
      rewrite (IH _ _ _ _ _ _ _ Hrest).
      now destruct (poll_tasks B post m2 c2 ds2) as [[[[? ?] ?] ?] ?].
    + eauto.
Qed.

Lemma ready_bit_spec (d : dict) :
  ready_bit d = if decide (is_ready d) then 1%Z else 0%Z.
Proof.
  destruct (decide (is_ready d)) as [H|H]; unfold ready_bit, is_ready in *.
  - now rewrite H.
  - destruct (d !! "ready") as [[| [|] | | | |]|]; congruence.
Qed.

Lemma count_finished_spec (m : IdsMap) evs :
  (forall e, In e evs -> deref m (ev_ref e) = ev_data e) ->
  count_finished m (map ev_ref evs) = Z.of_nat (length (ready_snapshots evs)).
Proof.
  unfold ready_snapshots. induction evs as [|e evs IH]; intros H;
    [reflexivity|].
  simpl. rewrite (H e) by (now left). rewrite ready_bit_spec, filter_cons.
  rewrite IH by (intros; apply H; now right).
  destruct (decide (is_ready (ev_data e))); simpl length; lia.
Qed.

(** What a completed pass consists of: the loop, then nothing more when
    the loop yielded nothing, or else the object of the last yield with
    its [progress] overwritten, yielded once more. *)
Lemma get_all_data_complete (B : broker) (ids_map : IdsMap) clock evs m c :
  get_all_data B ids_map clock = (evs, m, c, Return tt) ->
  exists evs0 m0,
    poll_tasks B (ids_keys ids_map) ids_map clock [] =
      (evs0, m0, c, map ev_ref evs0, Return tt) /\
    ((evs0 = [] /\ evs = [] /\ m = m0) \/
     (exists snaps k d,
        evs0 = snaps ++ [Yield PerTask k d] /\
        In k (ids_keys ids_map) /\
        deref m0 k = d /\
        let data :=
          <["progress" := VInt (percent_of
              (count_finished m0 (map ev_ref evs0)) (length evs0))]> d in
        evs = evs0 ++ [Yield Aggregate k data] /\
        m = ids_set m0 k data)).
Proof.
  intros H. unfold get_all_data in H.
  destruct (poll_tasks B (ids_keys ids_map) ids_map clock [])
    as [[[[evs0 m0] c0] ds] r] eqn:Hp.
  pose proof (poll_tasks_shape _ _ _ _ _ _ _ _ _ _ Hp)
    as (Hds & Hsite & Hkeys & Href & _).
  simpl in Hds. subst ds.
  destruct r as [[]|x]; [|congruence].
  destruct evs0 as [|e0 evs0'].
  - simpl in H. injection H as <- <- <-.
    exists [], m0. split; [reflexivity|]. now left.
  - destruct (exists_last (l := e0 :: evs0') ltac:(discriminate))
      as (snaps & e & He).
    rewrite He in *. clear He e0 evs0'.
    assert (Hlast : last (map ev_ref (snaps ++ [e])) = Some (ev_ref e)).
    { rewrite map_app. simpl. apply last_snoc. }
    rewrite Hlast, length_map in H. injection H as <- <- <-.
    exists (snaps ++ [e]), m0. split; [reflexivity|]. right.
    destruct e as [s k d].
    apply Forall_app in Hsite as [_ Hs]. inversion Hs as [|? ? Hs' _]; subst.
    simpl in Hs'. subst s.
    assert (Hk : In k (ids_keys ids_map)).
    { apply (Href (Yield PerTask k d)), in_or_app. right. now left. }
    pose proof (poll_tasks_last _ _ _ _ _ _ _ _ _ _ Hp (fun _ H => H)) as Hd.
    simpl in Hd.
    exists snaps, k, d. simpl. rewrite Hd. repeat split; auto.
Qed.

(** C6, as the code has it: a completed pass that yielded at least one
    per-task snapshot ends with one aggregate, which is the object of the
    last per-task snapshot itself with [progress] overwritten by
    100 * (ready snapshots) / (snapshots), integer division.  The earlier
    per-task snapshots are left as they were yielded. *)
Theorem get_all_data_aggregate (B : broker) (ids_map : IdsMap) clock evs m c :
  List.NoDup (ids_keys ids_map) ->
  get_all_data B ids_map clock = (evs, m, c, Return tt) ->
  Exists (fun e => ev_site e = PerTask) evs ->
  exists snaps k d pct,
    evs = snaps ++ [Yield PerTask k d;
                    Yield Aggregate k (<["progress" := VInt pct]> d)] /\
    Forall (fun e => ev_site e = PerTask) snaps /\
    pct = (Z.of_nat (length (ready_snapshots (snaps ++ [Yield PerTask k d])))
           * 100
           / Z.of_nat (length (snaps ++ [Yield PerTask k d])))%Z /\
    deref m k = <["progress" := VInt pct]> d /\
    snapshots_left_unchanged snaps m.
Proof.
  intros Hnd H Hex.
  apply get_all_data_complete in H as (evs0 & m0 & Hp & Hcase).
  destruct Hcase as [(_ & -> & _)|(snaps & k & d & -> & Hk & Hd & Hevs & Hm)].
  { inversion Hex. }
  pose proof (poll_tasks_shape _ _ _ _ _ _ _ _ _ _ Hp)
    as (_ & Hsite & Hkeys & _ & _).
  pose proof (poll_tasks_snapshots _ _ _ _ _ _ _ _ _ _ Hp Hnd (fun _ H => H))
    as [Hrefs Hsn].
  rewrite (count_finished_spec _ _ Hsn) in Hevs, Hm.
  assert (Hpct : forall n, percent_of n (length (snaps ++ [Yield PerTask k d]))
                 = (n * 100 / Z.of_nat (length (snaps ++ [Yield PerTask k d])))%Z).
  { intros n. unfold percent_of. rewrite length_app. simpl.
    destruct (0 <? Z.of_nat (length snaps + 1))%Z eqn:E; [reflexivity|].
    apply Z.ltb_ge in E. lia. }
  rewrite Hpct in Hevs, Hm.
  eexists snaps, k, d, _. split; [|split; [|split; [reflexivity|split]]].
  - rewrite Hevs, <- app_assoc. reflexivity.
  - now apply Forall_app in Hsite as [? _].
  - rewrite Hm. apply deref_set_eq. now rewrite Hkeys.
  - intros e He _. rewrite Hm.
    rewrite map_app in Hrefs. simpl in Hrefs.
    apply List.NoDup_remove_2 in Hrefs. rewrite app_nil_r in Hrefs.
    rewrite deref_set_ne.
    + apply Hsn, in_or_app. now left.
    + intros ->. apply Hrefs, in_map_iff. eauto.
Qed.

Lemma get_all_data_aggregate_witness :
  exists snaps k d pct,
    fst (fst (fst (get_all_data broker_mixed two_tasks 0))) =
      snaps ++ [Yield PerTask k d;
                Yield Aggregate k (<["progress" := VInt pct]> d)] /\
    deref (snd (fst (fst (get_all_data broker_mixed two_tasks 0)))) k =
      <["progress" := VInt pct]> d.
Proof.
  assert (Hr : snd (get_all_data broker_mixed two_tasks 0) = Return tt)
    by (vm_compute; reflexivity).
  assert (Hex : Exists (fun e => ev_site e = PerTask)
                  (fst (fst (fst (get_all_data broker_mixed two_tasks 0)))))
    by (apply (bool_decide_unpack _); vm_compute; exact I).
  destruct (get_all_data broker_mixed two_tasks 0) as [[[evs m] c] r] eqn:E.
  simpl in *. subst r.
  destruct (get_all_data_aggregate broker_mixed two_tasks 0 evs m c)
    as (snaps & k & d & pct & H1 & _ & _ & H4 & _).
  - unfold two_tasks, ids_keys. simpl.
    apply List.NoDup_cons; [intros [H|[]]; discriminate|].
    apply List.NoDup_cons; [intros []|]. apply List.NoDup_nil.
  - exact E.
  - exact Hex.
  - exists snaps, k, d, pct. split; assumption.
Defined.

(** C6, the part that fails: the aggregate is not a clone.  After the
    pass, the last per-task snapshot no longer has the [progress] it was
    yielded with. *)
Lemma aggregate_overwrites_last_snapshot :
  ~ snapshots_left_unchanged
      (fst (fst (fst (get_all_data broker_mixed two_tasks 0))))
      (snd (fst (fst (get_all_data broker_mixed two_tasks 0)))).
Proof.
  intros H.
  set (evs := fst (fst (fst (get_all_data broker_mixed two_tasks 0)))) in *.
  specialize (H (nth 1 evs (Yield Aggregate "" ∅))).
  assert (Hin : In (nth 1 evs (Yield Aggregate "" ∅)) evs)
    by (vm_compute; right; left; reflexivity).
  specialize (H Hin ltac:(vm_compute; reflexivity)).
  apply (f_equal (fun d : dict => d !! "progress")) in H.
  vm_compute in H. discriminate.
Qed.

(** ** Faults and failures *)

(** A decode error while the handle's state or payload is read leaves
    [get_task_data] as a [DecodeError]. *)
Lemma get_task_data_fault (B : broker) c k (m : IdsMap) :
  res_truthy (B c k) = true ->
  state (B c k) = Fault \/ info (B c k) = Fault ->
  exists m', get_task_data B c k m = (m', Raise DecodeError).
Proof.
  intros Ht Hf. unfold get_task_data, get_task_data_body. rewrite Ht. simpl.
  destruct (state (B c k)) as [st|].
  - destruct Hf as [Hf|Hf]; [discriminate|]. rewrite Hf. eauto.
  - eauto.
Qed.

(** An exception payload: the descriptor gets the state the broker
    reports, [ready] false and empty [results], and the exception is
    raised. *)
Lemma get_task_data_exception (B : broker) c k (m : IdsMap) st e :
  B c k = mk_AsyncResult true (Got st) (Got (PExc e)) ->
  get_task_data B c k m =
  (ids_set m k (set_up_state st (deref m k)), Raise e).
Proof.
  intros HB. unfold get_task_data, get_task_data_body. now rewrite HB.
Qed.

(** A pass in which polling identifier [k] raises stops there. *)
Lemma get_all_data_raise (B : broker) (ids_map : IdsMap) clock pre k post
    evs m1 c1 ds m2 e :
  ids_keys ids_map = pre ++ k :: post ->
  poll_tasks B pre ids_map clock [] = (evs, m1, c1, ds, Return tt) ->
  get_task_data B c1 k m1 = (m2, Raise e) ->
  get_all_data B ids_map clock = (evs, m2, S c1, Raise e).
Proof.
  intros Hk Hp Hg. unfold get_all_data.
  rewrite Hk, (poll_tasks_app _ _ _ _ _ _ _ _ _ _ Hp). simpl.
  rewrite Hg. now rewrite app_nil_r.
Qed.

(** One iteration of the loop. *)
Lemma poll_S fuel (B : broker) (R : root_ready) (ids_map : IdsMap) clock :
  poll (S fuel) B R ids_map clock =
  let '(ev1, m1, c1, r1) := get_all_data B ids_map clock in
  match r1 with
  | Raise DecodeError => prepend ev1 (poll fuel B R m1 c1)
  | Raise e => (ev1, m1, c1, Propagated e)
  | Return _ =>
    match R c1 with
    | Fault => prepend ev1 (poll fuel B R m1 (S c1))
    | Got false => prepend ev1 (poll fuel B R m1 (S c1))
    | Got true =>
      let '(ev2, m2, c2, r2) := get_all_data B m1 (S c1) in
      match r2 with
      | Raise DecodeError => prepend (ev1 ++ ev2) (poll fuel B R m2 c2)
      | Raise e => (ev1 ++ ev2, m2, c2, Propagated e)
      | Return _ => (ev1 ++ ev2, m2, c2, Finished)
      end
    end
  end.
Proof. reflexivity. Qed.

(** The loop never ends on a decode error. *)
Lemma poll_not_decode_error fuel :
  forall (B : broker) (R : root_ready) (m : IdsMap) c,
  snd (poll fuel B R m c) <> Propagated DecodeError.
Proof.
  induction fuel as [|fuel IH]; intros B R m c; [discriminate|].
  rewrite poll_S.
  assert (Hpre : forall evs m' c',
    snd (prepend evs (poll fuel B R m' c')) <> Propagated DecodeError).
  { intros evs m' c'. specialize (IH B R m' c').
    unfold prepend. now destruct (poll fuel B R m' c') as [[[? ?] ?] ?]. }
  destruct (get_all_data B m c) as [[[ev1 m1] c1] [[]|e1]].
  - destruct (R c1) as [[|]|]; auto.
    destruct (get_all_data B m1 (S c1)) as [[[ev2 m2] c2] [[]|e2]].
    + discriminate.
    + destruct e2; auto; simpl; congruence.
  - destruct e1; auto; simpl; congruence.
Qed.

(** C7, as the code has it: a decode error while one identifier is
    polled abandons the pass at that point.  What was yielded before it
    stays yielded, no aggregate is yielded for that pass, and the loop
    goes on with its next iteration; the loop never ends on a decode
    error. *)
Theorem decode_error_abandons_pass (B : broker) (R : root_ready)
    (ids_map : IdsMap) clock pre k post evs m1 c1 ds :
  ids_keys ids_map = pre ++ k :: post ->
  poll_tasks B pre ids_map clock [] = (evs, m1, c1, ds, Return tt) ->
  res_truthy (B c1 k) = true ->
  state (B c1 k) = Fault \/ info (B c1 k) = Fault ->
  exists m2,
    get_all_data B ids_map clock = (evs, m2, S c1, Raise DecodeError) /\
    ~ aggregate_emitted evs /\
    (forall fuel,
       poll (S fuel) B R ids_map clock = prepend evs (poll fuel B R m2 (S c1))) /\
    (forall fuel, snd (poll fuel B R ids_map clock) <> Propagated DecodeError).
Proof.
  intros Hk Hp Ht Hf.
  destruct (get_task_data_fault B c1 k m1 Ht Hf) as [m2 Hg].
  pose proof (get_all_data_raise _ _ _ _ _ _ _ _ _ _ _ _ Hk Hp Hg) as Hall.
  exists m2. split; [exact Hall|]. split; [|split].
  - pose proof (poll_tasks_shape _ _ _ _ _ _ _ _ _ _ Hp) as (_ & Hs & _).
    unfold aggregate_emitted. rewrite Exists_exists.
    intros (e & He & Hagg). rewrite Forall_forall in Hs.
    rewrite (Hs e He) in Hagg. discriminate.
  - intros fuel. now rewrite poll_S, Hall.
  - intros fuel. apply poll_not_decode_error.
Qed.

Lemma decode_error_abandons_pass_witness :
  exists m2 c1,
    get_all_data broker_faulty two_tasks 0 =
      (fst (fst (fst (fst (poll_tasks broker_faulty ["t1"] two_tasks 0 [])))),
       m2, S c1, Raise DecodeError).
Proof.
  assert (Hr : snd (poll_tasks broker_faulty ["t1"] two_tasks 0 []) = Return tt)
    by (vm_compute; reflexivity).
  destruct (poll_tasks broker_faulty ["t1"] two_tasks 0 [])
    as [[[[evs m1] c1] ds] r] eqn:E.
  simpl in *. subst r.
  destruct (decode_error_abandons_pass broker_faulty always_ready two_tasks 0
              ["t1"] "t2" [] evs m1 c1 ds eq_refl E eq_refl (or_introl eq_refl))
    as (m2 & H1 & _).
  exists m2, c1. exact H1.
Defined.

(** C7, the part that fails: when the second identifier's fetch hits a
    decode error, the pass yields the first snapshot and no aggregate. *)
Lemma no_aggregate_after_decode_error :
  snd (get_all_data broker_faulty two_tasks 0) = Raise DecodeError /\
  length (fst (fst (fst (get_all_data broker_faulty two_tasks 0)))) = 1%nat /\
  ~ aggregate_emitted
      (fst (fst (fst (get_all_data broker_faulty two_tasks 0)))).
Proof.
  split; [vm_compute; reflexivity|]. split; [vm_compute; reflexivity|].
  unfold aggregate_emitted. rewrite Exists_exists.
  intros (e & He & Hagg). apply list_elem_of_In in He.
  vm_compute in He. destruct He as [<-|[]]. discriminate.
Qed.

(** C4, as the code has it: on an exception payload [get_task_data]
    stores the state the broker reports, [ready] false and empty
    [results] in the descriptor, leaves [error] alone, and raises the
    exception.  Unless it is itself a decode error, [poll] does not catch
    it: the generator ends with it, in the first pass of an iteration and
    in the additional pass alike. *)
Theorem exception_payload_propagates (B : broker) (R : root_ready)
    (ids_map : IdsMap) clock pre k post evs m1 c1 ds st e :
  ids_keys ids_map = pre ++ k :: post ->
  poll_tasks B pre ids_map clock [] = (evs, m1, c1, ds, Return tt) ->
  B c1 k = mk_AsyncResult true (Got st) (Got (PExc e)) ->
  e <> DecodeError ->
  let data := set_up_state st (deref m1 k) in
  get_task_data B c1 k m1 = (ids_set m1 k data, Raise e) /\
  data !! "state" = Some (VStr st) /\
  data !! "error" = deref m1 k !! "error" /\
  (forall fuel,
     poll (S fuel) B R ids_map clock =
       (evs, ids_set m1 k data, S c1, Propagated e)) /\
  (forall fuel m0 c0 ev0 c,
     get_all_data B m0 c0 = (ev0, ids_map, c, Return tt) ->
     R c = Got true -> clock = S c ->
     poll (S fuel) B R m0 c0 =
       (ev0 ++ evs, ids_set m1 k data, S c1, Propagated e)).
Proof.
  intros Hk Hp HB He data.
  pose proof (get_task_data_exception B c1 k m1 st e HB) as Hg.
  pose proof (get_all_data_raise _ _ _ _ _ _ _ _ _ _ _ _ Hk Hp Hg) as Hall.
  fold data in Hg, Hall.
  split; [exact Hg|]. split; [|split; [|split]].
  - unfold data, set_up_state. map_lookup. reflexivity.
  - unfold data. apply set_up_state_frame; discriminate.
  - intros fuel. rewrite poll_S, Hall. destruct e; congruence.
  - intros fuel m0 c0 ev0 c H0 HR ->. rewrite poll_S, H0, HR, Hall.
    destruct e; congruence.
Qed.

Lemma exception_payload_propagates_witness :
  snd (poll 5 broker_failed always_ready one_task 0) =
  Propagated (RemoteError "boom").
Proof.
  destruct (exception_payload_propagates broker_failed always_ready one_task 0
              [] "t1" [] [] one_task 0 [] "FAILURE" (RemoteError "boom")
              eq_refl eq_refl eq_refl ltac:(discriminate))
    as (_ & _ & _ & H & _).
  now rewrite (H 4%nat).
Defined.

(** C4, the part that fails: with an exception payload the descriptor
    is not given an [error] field, and no snapshot is returned. *)
Lemma exception_payload_sets_no_error :
  snd (get_task_data broker_failed 0 "t1" one_task) =
    Raise (RemoteError "boom") /\
  ~ marked_failed (deref (fst (get_task_data broker_failed 0 "t1" one_task))
                         "t1").
Proof.
  split; [vm_compute; reflexivity|].
  intros [_ [v Hv]]. vm_compute in Hv. discriminate.
Qed.

(** ** The exit of the loop *)

Lemma prepend_nil run : prepend [] run = run.
Proof. now destruct run as [[[? ?] ?] ?]. Qed.

Lemma prepend_prepend evs evs' run :
  prepend evs (prepend evs' run) = prepend (evs ++ evs') run.
Proof. destruct run as [[[? ?] ?] ?]. simpl. now rewrite app_assoc. Qed.

Lemma prepend_inv evs run evs1 m c e :
  prepend evs run = (evs1, m, c, e) ->
  exists evs', run = (evs', m, c, e) /\ evs1 = evs ++ evs'.
Proof.
  destruct run as [[[evs' m'] c'] e']. simpl. intros H.
  injection H as <- <- <- <-. eauto.
Qed.

(** An iteration either goes on to the next one, or ends the run by the
    [break] after a completed pass, a ready root and a completed
    additional pass, or ends it with an exception. *)
Lemma poll_iteration (B : broker) (R : root_ready) (m : IdsMap) c :
  (exists ev m1 c1,
     forall fuel, poll (S fuel) B R m c = prepend ev (poll fuel B R m1 c1)) \/
  (exists ev1 m1 c1 ev2 m2 c2,
     get_all_data B m c = (ev1, m1, c1, Return tt) /\
     R c1 = Got true /\
     get_all_data B m1 (S c1) = (ev2, m2, c2, Return tt) /\
     forall fuel, poll (S fuel) B R m c = (ev1 ++ ev2, m2, c2, Finished)) \/
  (exists ev m1 c1 e,
     forall fuel, poll (S fuel) B R m c = (ev, m1, c1, Propagated e)).
Proof.
  destruct (get_all_data B m c) as [[[ev1 m1] c1] r1] eqn:E1.
  destruct r1 as [[]|e1].
  - destruct (R c1) as [[|]|] eqn:ER.
    + destruct (get_all_data B m1 (S c1)) as [[[ev2 m2] c2] r2] eqn:E2.
      destruct r2 as [[]|e2].
      * right. left. exists ev1, m1, c1, ev2, m2, c2.
        repeat split; auto. intros fuel. now rewrite poll_S, E1, ER, E2.
      * destruct (decide (e2 = DecodeError)) as [->|Hne].
        -- left. exists (ev1 ++ ev2), m2, c2. intros fuel.
           now rewrite poll_S, E1, ER, E2.
        -- right. right. exists (ev1 ++ ev2), m2, c2, e2. intros fuel.
           rewrite poll_S, E1, ER, E2. destruct e2; congruence.
    + left. exists ev1, m1, (S c1). intros fuel. now rewrite poll_S, E1, ER.
    + left. exists ev1, m1, (S c1). intros fuel. now rewrite poll_S, E1, ER.
  - destruct (decide (e1 = DecodeError)) as [->|Hne].
    + left. exists ev1, m1, c1. intros fuel. now rewrite poll_S, E1.
    + right. right. exists ev1, m1, c1, e1. intros fuel.
      rewrite poll_S, E1. destruct e1; congruence.
Qed.

(** A run that is still going after [n] iterations continues from the
    state it has reached. *)
Lemma poll_continue n :
  forall k (B : broker) (R : root_ready) (m : IdsMap) c evs0 ma ca,
  poll n B R m c = (evs0, ma, ca, Running) ->
  poll (n + k) B R m c = prepend evs0 (poll k B R ma ca).
Proof.
  induction n as [|n IH]; intros k B R m c evs0 ma ca H.
  - simpl in H. injection H as <- <- <-. simpl. now rewrite prepend_nil.
  - destruct (poll_iteration B R m c)
      as [(ev & m1 & c1 & Hs)|[(ev1 & m1 & c1 & ev2 & m2 & c2 & _ & _ & _ & Hs)
         |(ev & m1 & c1 & e & Hs)]].
    + rewrite Hs in H. apply prepend_inv in H as (evs' & H & ->).
      replace (S n + k)%nat with (S (n + k)) by lia.
      rewrite Hs, (IH _ _ _ _ _ _ _ _ H). apply prepend_prepend.
    + rewrite Hs in H. discriminate.
    + rewrite Hs in H. discriminate.
Qed.

(** C3, as the code has it: the only normal exit of [poll] is the
    [break].  A run ends as finished exactly when, in some iteration, the
    pass completes, the root handle then reports ready, and the
    additional full pass completes as well; the dicts of these two passes
    are the last ones yielded.  An additional pass cut short by a decode
    error does not end the loop. *)
Theorem poll_finishes_iff fuel (B : broker) (R : root_ready) (m : IdsMap) c
    evs m' c' :
  poll fuel B R m c = (evs, m', c', Finished) <->
  exists n evs0 ma ca ev1 mb cb ev2,
    (n < fuel)%nat /\
    poll n B R m c = (evs0, ma, ca, Running) /\
    get_all_data B ma ca = (ev1, mb, cb, Return tt) /\
    R cb = Got true /\
    get_all_data B mb (S cb) = (ev2, m', c', Return tt) /\
    evs = evs0 ++ ev1 ++ ev2.
Proof.
  split.
  - revert m c evs. induction fuel as [|fuel IH]; intros m c evs H.
    + discriminate.
    + destruct (poll_iteration B R m c)
        as [(ev & m1 & c1 & Hs)
           |[(ev1 & m1 & c1 & ev2 & m2 & c2 & E1 & ER & E2 & Hs)
           |(ev & m1 & c1 & e & Hs)]].
      * rewrite Hs in H. apply prepend_inv in H as (evs' & H & ->).
        apply IH in H
          as (n & evs0 & ma & ca & ev1 & mb & cb & ev2 &
              Hn & Hrun & E1 & ER & E2 & ->).
        exists (S n), (ev ++ evs0), ma, ca, ev1, mb, cb, ev2.
        repeat split; auto; [lia| |now rewrite app_assoc].
        now rewrite Hs, Hrun.
      * rewrite Hs in H. injection H as <- <- <-.
        exists 0%nat, [], m, c, ev1, m1, c1, ev2.
        repeat split; auto. lia.
      * rewrite Hs in H. discriminate.
  - intros (n & evs0 & ma & ca & ev1 & mb & cb & ev2 &
            Hn & Hrun & E1 & ER & E2 & ->).
    replace fuel with (n + S (fuel - S n))%nat by lia.
    rewrite (poll_continue _ _ _ _ _ _ _ _ _ Hrun).
    now rewrite poll_S, E1, ER, E2.
Qed.

Lemma poll_finishes_iff_witness :
  exists evs m' c',
    poll 1 broker_finished always_ready one_task 0 = (evs, m', c', Finished).
Proof.
  assert (H1 : snd (get_all_data broker_finished one_task 0) = Return tt)
    by (vm_compute; reflexivity).
  assert (H2 : snd (get_all_data broker_finished
                      (snd (fst (fst (get_all_data broker_finished one_task 0))))
                      (S (snd (fst (get_all_data broker_finished one_task 0)))))
               = Return tt)
    by (vm_compute; reflexivity).
  destruct (get_all_data broker_finished one_task 0)
    as [[[ev1 mb] cb] r1] eqn:E1.
  simpl in H1, H2. subst r1.
  destruct (get_all_data broker_finished mb (S cb))
    as [[[ev2 m'] c'] r2] eqn:E2.
  simpl in H2. subst r2.
  exists (ev1 ++ ev2), m', c'.
  apply (proj2 (poll_finishes_iff 1 broker_finished always_ready one_task 0
                  (ev1 ++ ev2) m' c')).
  exists 0%nat, [], one_task, 0%nat, ev1, mb, cb, ev2.
  repeat split; auto.
Defined.

(** C3, the part that fails: the root reports ready after the first
    pass, a decode error cuts the additional pass short, and the loop
    goes on to a second iteration instead of stopping. *)
Lemma ready_root_does_not_stop_loop :
  ~ stops_once_ready broker_hiccup always_ready one_task 0.
Proof.
  intros H.
  assert (Hr : snd (get_all_data broker_hiccup one_task 0) = Return tt)
    by (vm_compute; reflexivity).
  assert (Hrun : snd (poll 1 broker_hiccup always_ready one_task 0) = Running)
    by (vm_compute; reflexivity).
  unfold stops_once_ready, finishes in H. rewrite Hrun in H.
  destruct (get_all_data broker_hiccup one_task 0) as [[[ev1 m1] c1] r1].
  simpl in Hr. subst r1.
  specialize (H ev1 m1 c1 eq_refl eq_refl). discriminate.
Qed.

(** ** The record stream *)

Lemma merge_results_app evs1 evs2 s1 :
  merge_results evs1 = (s1, Return tt) ->
  merge_results (evs1 ++ evs2) =
  let '(s2, r) := merge_results evs2 in (s1 ++ s2, r).
Proof.
  revert s1. induction evs1 as [|e evs1 IH]; intros s1 H; simpl in *.
  - injection H as <-. now destruct (merge_results evs2).
  - destruct (ev_data e !! "results") as [v|]; [|congruence].
    destruct (yield_from v) as [items|x]; [|congruence].
    destruct (merge_results evs1) as [s r] eqn:E.
    injection H as <- ->. rewrite (IH _ eq_refl).
    destruct (merge_results evs2). now rewrite app_assoc.
Qed.

(** C1, as the code has it: the stream is the concatenation of the
    [results] of the yielded dicts, with nothing removed.  In every
    completed pass that yields something, the aggregate is the object of
    the last per-task snapshot with the same [results], so these records
    are yielded twice by that pass; and a list payload is put whole into
    the snapshot whatever earlier passes have left in the store. *)
Theorem results_are_emitted_again (B : broker) (ids_map : IdsMap) clock
    evs m c :
  get_all_data B ids_map clock = (evs, m, c, Return tt) ->
  evs <> [] ->
  (exists snaps k d d',
     evs = snaps ++ [Yield PerTask k d; Yield Aggregate k d'] /\
     d' !! "results" = d !! "results" /\
     forall s0 l,
       merge_results snaps = (s0, Return tt) ->
       d !! "results" = Some (VRecords l) ->
       merge_results evs = (s0 ++ map VRec l ++ map VRec l, Return tt)) /\
  (forall c0 k st l (m0 : IdsMap),
     B c0 k = mk_AsyncResult true (Got st) (Got (PList l)) ->
     l = [] \/ is_Some (deref m0 k !! "name") ->
     returns_snapshot (snd (get_task_data B c0 k m0)) = true /\
     returned (snd (get_task_data B c0 k m0)) !! "results" =
       Some (VRecords l)).
Proof.
  intros H Hne. split.
  - apply get_all_data_complete in H as (evs0 & m0 & _ & Hcase).
    destruct Hcase as [(_ & -> & _)|(snaps & k & d & -> & _ & _ & Hevs & _)];
      [congruence|].
    simpl in Hevs. rewrite <- app_assoc in Hevs. simpl in Hevs.
    eexists snaps, k, d, _. split; [exact Hevs|].
    split; [now rewrite lookup_insert_ne|].
    intros s0 l Hs Hl. rewrite Hevs, (merge_results_app _ _ _ Hs).
    simpl. rewrite lookup_insert_ne by done. rewrite Hl. simpl.
    now rewrite app_nil_r.
  - intros c0 k st l m0 HB Hl. unfold get_task_data. rewrite HB.
    fold (deref m0 k). rewrite (get_task_data_body_list st l _ Hl). simpl.
    split; [reflexivity|]. now map_lookup.
Qed.

Lemma results_are_emitted_again_witness :
  exists s,
    merge_results
      (fst (fst (fst (get_all_data broker_finished one_task 0)))) =
    (s ++ [VRec url1] ++ [VRec url1], Return tt).
Proof.
  assert (Hr : snd (get_all_data broker_finished one_task 0) = Return tt)
    by (vm_compute; reflexivity).
  assert (Hl : (length (fst (fst (fst (get_all_data broker_finished one_task 0))))
                = 2)%nat)
    by (vm_compute; reflexivity).
  assert (Hd : forall e,
            head (fst (fst (fst (get_all_data broker_finished one_task 0))))
              = Some e ->
            ev_data e !! "results" = Some (VRecords [url1])).
  { intros e. vm_compute. intros He. injection He as <-. reflexivity. }
  destruct (get_all_data broker_finished one_task 0) as [[[evs m] c] r] eqn:E.
  simpl in *. subst r.
  destruct (results_are_emitted_again broker_finished one_task 0 evs m c E)
    as [(snaps & k & d & d' & Hevs & _ & Hm) _].
  - intros ->. discriminate.
  - subst evs. destruct snaps as [|e snaps].
    + exists []. apply (Hm [] [url1] eq_refl). apply (Hd _ eq_refl).
    + rewrite length_app in Hl. simpl in Hl. lia.
Defined.

(** C1, as stated, fails: one finished task with one record, the root
    ready at once; the stream holds that record four times. *)
Lemma record_emitted_four_times :
  fst (iter_results 1 broker_finished always_ready one_task 0) =
    [VRec url1; VRec url1; VRec url1; VRec url1] /\
  ~ List.NoDup (fst (iter_results 1 broker_finished always_ready one_task 0)).
Proof.
  assert (E : fst (iter_results 1 broker_finished always_ready one_task 0) =
              [VRec url1; VRec url1; VRec url1; VRec url1])
    by (vm_compute; reflexivity).
  split; [exact E|]. rewrite E. intros H.
  apply List.NoDup_cons_iff in H as [H _]. apply H. now left.
Qed.

(** ** The tree walker *)

(** Induction on handles, through the lists of children. *)
Lemma handle_induction (P : handle -> Prop) :
  P HNone ->
  (forall cls i b ch p,
     P p ->
     match ch with Got (Some l) => Forall P l | _ => True end ->
     P (HNode cls i b ch p)) ->
  forall h, P h.
Proof.
  intros Hnone Hnode.
  refine (fix go (h : handle) : P h :=
    match h with
    | HNone => Hnone
    | HNode cls i b ch p =>
      Hnode cls i b ch p (go p)
        (match ch return match ch with
                         | Got (Some l) => Forall P l
                         | _ => True
                         end with
         | Got (Some l) =>
           (fix all (l : list handle) : Forall P l :=
              match l with
              | [] => List.Forall_nil P
              | x :: l' => @List.Forall_cons _ P x l' (go x) (all l')
              end) l
         | Got None => I
         | Fault => I
         end)
    end).
Qed.

Lemma get_task_ids_node cls i b ch p ids :
  get_task_ids (HNode cls i b ch p) ids =
  let ids1 :=
    match cls with
    | IsGroupResult => get_task_ids p ids
    | IsAsyncResult => if bool_decide (i ∈ ids) then ids else ids ++ [i]
    end in
  match ch with
  | Fault => ids1
  | Got c =>
    let ids2 :=
      match c with
      | Some l => fold_left (fun acc child => get_task_ids child acc) l ids1
      | None => ids1
      end in
    if handle_truthy p then get_task_ids p ids2 else ids2
  end.
Proof. reflexivity. Qed.

(** The list only grows at its end. *)
Lemma get_task_ids_prefix h : forall ids, ids `prefix_of` get_task_ids h ids.
Proof.
  induction h as [|cls i b ch p IHp IHch] using handle_induction; intros ids.
  - reflexivity.
  - rewrite get_task_ids_node. cbv zeta.
    assert (H1 : ids `prefix_of`
              match cls with
              | IsGroupResult => get_task_ids p ids
              | IsAsyncResult =>
                if bool_decide (i ∈ ids) then ids else ids ++ [i]
              end).
    { destruct cls; [apply IHp|].
      destruct (bool_decide (i ∈ ids)); [reflexivity|apply prefix_app_r].
      reflexivity. }
    destruct ch as [c|]; [|exact H1].
    etrans; [exact H1|].
    match goal with |- ?a `prefix_of` (if _ then get_task_ids p ?b else ?b) =>
      assert (H2 : a `prefix_of` b) end.
    { destruct c as [l|]; [|reflexivity].
      generalize (match cls with
                  | IsGroupResult => get_task_ids p ids
                  | IsAsyncResult =>
                    if bool_decide (i ∈ ids) then ids else ids ++ [i]
                  end).
      induction l as [|x l IHl]; intros acc; simpl; [reflexivity|].
      inversion IHch as [|? ? Hx Hl]; subst.
      etrans; [apply Hx|]. apply IHl, Hl. }
    etrans; [exact H2|].
    destruct (handle_truthy p); [apply IHp|reflexivity].
Qed.

Lemma get_task_ids_children_prefix l : forall ids,
  ids `prefix_of` fold_left (fun acc child => get_task_ids child acc) l ids.
Proof.
  induction l as [|x l IH]; intros ids; simpl; [reflexivity|].
  etrans; [apply get_task_ids_prefix|apply IH].
Qed.

Lemma prefix_of_elem (l1 l2 : list string) x :
  l1 `prefix_of` l2 -> x ∈ l1 -> x ∈ l2.
Proof. intros [k ->] H. apply elem_of_app. now left. Qed.

(** No identifier is appended twice. *)
Lemma get_task_ids_NoDup h : forall ids,
  NoDup ids -> NoDup (get_task_ids h ids).
Proof.
  induction h as [|cls i b ch p IHp IHch] using handle_induction;
    intros ids Hnd.
  - exact Hnd.
  - rewrite get_task_ids_node. cbv zeta.
    assert (H1 : NoDup
              match cls with
              | IsGroupResult => get_task_ids p ids
              | IsAsyncResult =>
                if bool_decide (i ∈ ids) then ids else ids ++ [i]
              end).
    { destruct cls; [now apply IHp|].
      destruct (bool_decide (i ∈ ids)) eqn:E; [exact Hnd|].
      apply bool_decide_eq_false in E.
      apply NoDup_app. split; [exact Hnd|]. split.
      - intros x Hx Hx'. apply list_elem_of_singleton in Hx'. now subst.
      - apply NoDup_singleton. }
    destruct ch as [c|]; [|exact H1].
    revert H1.
    generalize (match cls with
                | IsGroupResult => get_task_ids p ids
                | IsAsyncResult =>
                  if bool_decide (i ∈ ids) then ids else ids ++ [i]
                end).
    intros ids1 H1.
    assert (H2 : NoDup
              match c with
              | Some l =>
                fold_left (fun acc child => get_task_ids child acc) l ids1
              | None => ids1
              end).
    { destruct c as [l|]; [|exact H1].
      revert ids1 H1. induction l as [|x l IHl]; intros acc Hacc; simpl;
        [exact Hacc|].
      inversion IHch as [|? ? Hx Hl]; subst. apply IHl; auto. }
    destruct (handle_truthy p); [now apply IHp|exact H2].
Qed.

Lemma prefix_of_subseteq (l1 l2 l3 : list string) :
  l1 `prefix_of` l2 -> l2 ⊆ l3 -> l1 ⊆ l3.
Proof. intros Hp Hs x Hx. apply Hs. eapply prefix_of_elem; eauto. Qed.

(** Walking a tree again, over a list that already holds everything the
    first walk collected, appends nothing. *)
Lemma get_task_ids_absorbed h : forall ids ids',
  get_task_ids h ids ⊆ ids' -> get_task_ids h ids' = ids'.
Proof.
  induction h as [|cls i b ch p IHp IHch] using handle_induction;
    intros ids ids' Hsub.
  - reflexivity.
  - rewrite get_task_ids_node in *. cbv zeta in *.
    set (ids1 := match cls with
                 | IsGroupResult => get_task_ids p ids
                 | IsAsyncResult =>
                   if bool_decide (i ∈ ids) then ids else ids ++ [i]
                 end) in *.
    assert (Hfinal : ids1 `prefix_of`
              match ch with
              | Got c =>
                let ids2 :=
                  match c with
                  | Some l =>
                    fold_left (fun acc child => get_task_ids child acc) l ids1
                  | None => ids1
                  end in
                if handle_truthy p then get_task_ids p ids2 else ids2
              | Fault => ids1
              end).
    { destruct ch as [c|]; [|reflexivity]. cbv zeta.
      etrans; [|destruct (handle_truthy p);
                 [apply get_task_ids_prefix|reflexivity]].
      destruct c; [apply get_task_ids_children_prefix|reflexivity]. }
    assert (H1 : match cls with
                 | IsGroupResult => get_task_ids p ids'
                 | IsAsyncResult =>
                   if bool_decide (i ∈ ids') then ids' else ids' ++ [i]
                 end = ids').
    { pose proof (prefix_of_subseteq _ _ _ Hfinal Hsub) as Hs1.
      subst ids1. destruct cls; [now apply (IHp ids)|].
      rewrite bool_decide_eq_true_2; [reflexivity|]. apply Hs1.
      destruct (bool_decide (i ∈ ids)) eqn:E.
      - now apply bool_decide_eq_true in E.
      - apply elem_of_app. right. now apply list_elem_of_singleton. }
    rewrite H1. clear H1 Hfinal.
    destruct ch as [c|]; [|reflexivity]. cbv zeta in *.
    generalize dependent ids1. intros ids1 Hsub.
    assert (H2 : match c with
                 | Some l =>
                   fold_left (fun acc child => get_task_ids child acc) l ids'
                 | None => ids'
                 end = ids').
    { destruct c as [l|]; [|reflexivity].
      assert (Hs2 : fold_left (fun acc child => get_task_ids child acc) l ids1
                    ⊆ ids').
      { eapply prefix_of_subseteq; [|exact Hsub].
        destruct (handle_truthy p);
          [apply get_task_ids_prefix|reflexivity]. }
      clear Hsub. revert ids1 Hs2.
      induction l as [|x l IHl]; intros acc Hs2; simpl in *; [reflexivity|].
      inversion IHch as [|? ? Hx Hl]; subst.
      rewrite (Hx acc ids').
      - apply (IHl Hl (get_task_ids x acc) Hs2).
      - eapply prefix_of_subseteq; [|exact Hs2].
        apply get_task_ids_children_prefix. }
    rewrite H2.
    destruct (handle_truthy p); [|reflexivity].
    eapply IHp. exact Hsub.
Qed.

(** In a tree without faults every single-task identifier is collected. *)
Lemma get_task_ids_complete h : forall ids,
  fault_free h = true -> all_ids h ⊆ get_task_ids h ids.
Proof.
  induction h as [|cls i b ch p IHp IHch] using handle_induction;
    intros ids Hff.
  - intros x Hx. inversion Hx.
  - rewrite get_task_ids_node. cbv zeta. simpl in Hff. simpl all_ids.
    apply andb_true_iff in Hff as [Hff Hb].
    apply andb_true_iff in Hff as [Hch Hp].
    set (ids1 := match cls with
                 | IsGroupResult => get_task_ids p ids
                 | IsAsyncResult =>
                   if bool_decide (i ∈ ids) then ids else ids ++ [i]
                 end).
    assert (H1 : match cls with IsAsyncResult => [i] | IsGroupResult => [] end
                 ⊆ ids1).
    { subst ids1. destruct cls; intros x Hx; [inversion Hx|].
      apply list_elem_of_singleton in Hx as ->.
      destruct (bool_decide (i ∈ ids)) eqn:E.
      - now apply bool_decide_eq_true in E.
      - apply elem_of_app. right. now apply list_elem_of_singleton. }
    clearbody ids1.
    destruct ch as [c|]; [|discriminate].
    set (ids2 := match c with
                 | Some l =>
                   fold_left (fun acc child => get_task_ids child acc) l ids1
                 | None => ids1
                 end).
    assert (H12 : ids1 `prefix_of` ids2).
    { subst ids2. destruct c; [apply get_task_ids_children_prefix|reflexivity]. }
    assert (H2 : match c with Some l => flat_map all_ids l | None => [] end
                 ⊆ ids2).
    { subst ids2. clear H12 H1. destruct c as [l|];
        [|intros x Hx; inversion Hx].
      revert ids1. induction l as [|y l IHl]; intros acc; simpl in *.
      - intros x Hx. inversion Hx.
      - apply andb_true_iff in Hch as [Hy Hl].
        inversion IHch as [|? ? Py Pl]; subst.
        intros x Hx. apply elem_of_app in Hx as [Hx|Hx].
        + eapply prefix_of_elem; [apply get_task_ids_children_prefix|].
          now apply (Py acc Hy).
        + now apply (IHl Pl Hl). }
    clearbody ids2.
    assert (H23 : ids2 `prefix_of`
              (if handle_truthy p then get_task_ids p ids2 else ids2)).
    { destruct (handle_truthy p); [apply get_task_ids_prefix|reflexivity]. }
    intros x Hx. apply elem_of_app in Hx as [Hx|Hx];
      [|apply elem_of_app in Hx as [Hx|Hx]].
    + eapply prefix_of_elem; [exact H23|].
      eapply prefix_of_elem; [exact H12|]. now apply H1.
    + eapply prefix_of_elem; [exact H23|]. now apply H2.
    + destruct p as [|cls' i' b' ch' p']; [inversion Hx|].
      simpl in Hb. simpl handle_truthy. rewrite Hb.
      now apply (IHp ids2 Hp).
Qed.

(** C8: [get_task_ids] never appends an identifier that the list already
    holds.  Starting from a list without repetition, the list after the
    walk has none, it extends the list it started from, walking the same
    tree again changes nothing, and in a tree without faults every
    single-task identifier is in it. *)
Theorem get_task_ids_exactly_once (result : handle) (ids : list string) :
  NoDup ids ->
  NoDup (get_task_ids result ids) /\
  ids `prefix_of` get_task_ids result ids /\
  get_task_ids result (get_task_ids result ids) = get_task_ids result ids /\
  (fault_free result = true ->
   forall i, i ∈ all_ids result -> i ∈ get_task_ids result ids).
Proof.
  intros Hnd. split; [now apply get_task_ids_NoDup|].
  split; [apply get_task_ids_prefix|]. split.
  - now apply (get_task_ids_absorbed result ids).
  - intros Hff i Hi. now apply (get_task_ids_complete result ids Hff).
Qed.

Lemma get_task_ids_exactly_once_witness :
  get_task_ids sample_dag [] = ["a"; "c"; "b"] /\
  NoDup (get_task_ids sample_dag []).
Proof.
  split; [reflexivity|].
  apply (get_task_ids_exactly_once sample_dag [] NoDup_nil_2).
Defined.

(** C10: the list bound to the default [ids=[]] is one object for all
    calls.  A call without [ids] starts from what the earlier such calls
    have accumulated and adds to it, whereas a call with an explicit list
    depends on that list only; so the same root gives different lists
    depending on the calls made before. *)
Theorem default_ids_shared_between_calls :
  (forall r1 r2 st,
     snd (call_get_task_ids r2 None (fst (call_get_task_ids r1 None st))) =
     get_task_ids r2 (get_task_ids r1 (get_task_ids_default st))) /\
  (forall r1 r2 l st,
     snd (call_get_task_ids r2 (Some l) (fst (call_get_task_ids r1 None st))) =
     get_task_ids r2 l) /\
  (forall r1 r2 st,
     snd (call_get_task_ids r1 None st) `prefix_of`
     snd (call_get_task_ids r2 None (fst (call_get_task_ids r1 None st)))) /\
  snd (call_get_task_ids shared_leaf None fresh_interp) = ["c"] /\
  snd (call_get_task_ids shared_leaf None
         (fst (call_get_task_ids other_leaf None fresh_interp))) = ["d"; "c"].
Proof.
  split; [reflexivity|]. split; [reflexivity|].
  split; [|split; reflexivity].
  intros r1 r2 st. simpl. apply get_task_ids_prefix.
Qed.

(** * Further properties of the code *)

(** ** get_task_data, edge and error behaviour *)

Lemma get_task_data_body_falsy res data :
  res_truthy res = false -> get_task_data_body res data = (data, Return false).
Proof. intros H. unfold get_task_data_body. now rewrite H. Qed.

Lemma get_task_data_body_truthy res data data' :
  get_task_data_body res data = (data', Return false) -> res_truthy res = false.
Proof.
  unfold get_task_data_body. destruct (res_truthy res); [|reflexivity].
  simpl. destruct (state res) as [st|]; [|congruence].
  destruct (info res) as [[e|l|i|]|]; try congruence;
    try (intros H; apply set_ready_and_progress_return in H as [? _];
         congruence).
  destruct l as [|r l];
    [intros H; apply set_ready_and_progress_return in H as [? _]; congruence|].
  destruct (_ !! "name"); [|congruence].
  intros H; apply set_ready_and_progress_return in H as [? _]; congruence.
Qed.

(** X1: [get_task_data] returns [None] exactly when the handle counts as
    false, and then [ids_map] is left as it was. *)
Theorem get_task_data_returns_None_iff (B : broker) c k (m : IdsMap) :
  (snd (get_task_data B c k m) = Return None <-> res_truthy (B c k) = false) /\
  (res_truthy (B c k) = false -> fst (get_task_data B c k m) = m).
Proof.
  unfold get_task_data. fold (deref m k).
  destruct (get_task_data_body (B c k) (deref m k)) as [d r] eqn:E. simpl.
  split; [split|].
  - destruct r as [[|]|e]; try discriminate. intros _.
    now apply get_task_data_body_truthy in E.
  - intros H. rewrite (get_task_data_body_falsy _ _ H) in E.
    now injection E as <- <-.
  - intros H. rewrite (get_task_data_body_falsy _ _ H) in E.
    injection E as <- <-. apply ids_set_same.
Qed.

(** X2: a non-empty list payload polled for a descriptor without [name]
    raises KeyError on 'name'; the descriptor is left half updated, with
    the broker's state, [ready] false, [results] already the payload and
    [count] untouched.  For an identifier that is not a key of [ids_map]
    the store is unchanged. *)
Theorem list_payload_without_name (B : broker) c k (m : IdsMap) st r l :
  B c k = mk_AsyncResult true (Got st) (Got (PList (r :: l))) ->
  deref m k !! "name" = None ->
  snd (get_task_data B c k m) = Raise (KeyError "name") /\
  (In k (ids_keys m) ->
   let d := deref (fst (get_task_data B c k m)) k in
   d !! "state" = Some (VStr st) /\
   d !! "ready" = Some (VBool false) /\
   d !! "results" = Some (VRecords (r :: l)) /\
   d !! "count" = deref m k !! "count") /\
  (ids_get m k = None -> fst (get_task_data B c k m) = m).
Proof.
  intros HB Hn. unfold get_task_data. fold (deref m k).
  unfold get_task_data_body. rewrite HB. simpl negb. cbv iota. simpl state.
  simpl info. cbv iota beta zeta.
  assert (Hname : (<["results" := VRecords (r :: l)]>
                     (set_up_state st (deref m k))) !! "name" = None).
  { unfold set_up_state. now rewrite !lookup_insert_ne. }
  rewrite Hname. simpl fst. simpl snd.
  split; [reflexivity|]. split.
  - intros Hk. rewrite (deref_set_eq _ _ _ Hk). unfold set_up_state.
    repeat split; map_lookup; reflexivity.
  - intros Hg. now apply ids_set_absent.
Qed.

Lemma list_payload_without_name_witness :
  snd (get_task_data broker_finished 0 "t1" bare_task) = Raise (KeyError "name").
Proof.
  apply (list_payload_without_name broker_finished 0 "t1" bare_task
           "SUCCESS" url1 [] eq_refl).
  reflexivity.
Defined.

(** The merged dict of a metadata payload. *)
Lemma get_task_data_dict (B : broker) c k (m : IdsMap) st i :
  B c k = mk_AsyncResult true (Got st) (Got (PDict i)) ->
  get_task_data_body (B c k) (deref m k) =
  set_ready_and_progress (i ∪ set_up_state st (deref m k)).
Proof. intros HB. unfold get_task_data_body. now rewrite HB. Qed.

Lemma returned_get_task_data (B : broker) c k (m : IdsMap) d r :
  get_task_data_body (B c k) (deref m k) = (d, r) ->
  returns_snapshot (snd (get_task_data B c k m)) = true ->
  r = Return true /\ returned (snd (get_task_data B c k m)) = d.
Proof.
  unfold get_task_data. fold (deref m k). intros ->. simpl.
  destruct r as [[|]|e]; simpl; try discriminate. auto.
Qed.

(** X3: with a metadata payload the keys of the mapping override those
    of the descriptor, [state] included: the [ready] flag is computed
    from the mapping's state when it has one, and from the broker's
    state otherwise. *)
Theorem metadata_overrides_descriptor (B : broker) c k (m : IdsMap) st i :
  B c k = mk_AsyncResult true (Got st) (Got (PDict i)) ->
  returns_snapshot (snd (get_task_data B c k m)) = true ->
  (forall key v, i !! key = Some v -> key <> "ready" -> key <> "progress" ->
     returned (snd (get_task_data B c k m)) !! key = Some v) /\
  returned (snd (get_task_data B c k m)) !! "ready" =
    Some (VBool (in_terminal (default (VStr st) (i !! "state")))).
Proof.
  intros HB Hret.
  destruct (get_task_data_body (B c k) (deref m k)) as [d r] eqn:E.
  destruct (returned_get_task_data _ _ _ _ _ _ E Hret) as [-> ->].
  rewrite (get_task_data_dict _ _ _ _ _ _ HB) in E.
  split.
  - intros key v Hi Hr Hp.
    rewrite (set_ready_and_progress_frame _ _ _ key E Hr Hp).
    now apply lookup_union_Some_l.
  - apply set_ready_and_progress_return in E as (_ & v & Hs & Hr & _).
    rewrite Hr. f_equal. f_equal. f_equal.
    destruct (i !! "state") as [v'|] eqn:Ei; simpl.
    + rewrite (lookup_union_Some_l _ _ _ _ Ei) in Hs. congruence.
    + rewrite lookup_union_r in Hs by assumption.
      unfold set_up_state in Hs. rewrite !lookup_insert_ne in Hs by done.
      rewrite lookup_insert_eq in Hs. congruence.
Qed.

Lemma metadata_overrides_descriptor_witness :
  returned (snd (get_task_data broker_meta_state 0 "t1" one_task)) !! "state"
    = Some (VStr "SUCCESS") /\
  returned (snd (get_task_data broker_meta_state 0 "t1" one_task)) !! "ready"
    = Some (VBool true).
Proof.
  destruct (metadata_overrides_descriptor broker_meta_state 0 "t1" one_task
              "RUNNING" {[ "state" := VStr "SUCCESS" ]} eq_refl) as [H1 H2].
  - vm_compute. reflexivity.
  - split; [apply H1; [reflexivity|discriminate|discriminate]|exact H2].
Defined.

Lemma records_of_type_app tag l1 l2 :
  records_of_type tag (l1 ++ l2) =
  records_of_type tag l1 ++ records_of_type tag l2.
Proof. unfold records_of_type. apply List.filter_app. Qed.

Lemma records_of_type_none tag l :
  Forall (fun e => _type e <> tag) l -> records_of_type tag l = [].
Proof.
  intros H. apply records_of_type_nil. intros Hex.
  apply Exists_exists in Hex as (e & He & Ht).
  rewrite Forall_forall in H. now apply (H e He).
Qed.

(** X4: while a task is not ready and reports partial results, the
    snapshot's [progress] is the [percent] of the last record of type
    'progress' among them; progress records before it and other records
    after it do not count. *)
Theorem last_progress_record_wins (B : broker) c k (m : IdsMap) st i l1 p l2 :
  B c k = mk_AsyncResult true (Got st) (Got (PDict i)) ->
  i !! "results" = Some (VRecords (l1 ++ p :: l2)) ->
  _type p = "progress" ->
  Forall (fun e => _type e <> "progress") l2 ->
  in_terminal (default (VStr st) (i !! "state")) = false ->
  returns_snapshot (snd (get_task_data B c k m)) = true /\
  returned (snd (get_task_data B c k m)) !! "progress" = Some (VInt (percent p)) /\
  returned (snd (get_task_data B c k m)) !! "ready" = Some (VBool false).
Proof.
  intros HB Hres Hp Hl2 Hterm.
  unfold get_task_data. fold (deref m k).
  rewrite (get_task_data_dict _ _ _ _ _ _ HB).
  set (merged := i ∪ set_up_state st (deref m k)).
  assert (Hs : merged !! "state" = Some (default (VStr st) (i !! "state"))).
  { subst merged. destruct (i !! "state") as [v|] eqn:Ei; simpl.
    - now apply lookup_union_Some_l.
    - rewrite lookup_union_r by assumption. unfold set_up_state.
      now map_lookup. }
  assert (Hr : merged !! "results" = Some (VRecords (l1 ++ p :: l2))).
  { subst merged. now apply lookup_union_Some_l. }
  clearbody merged.
  unfold set_ready_and_progress. rewrite Hs, Hterm.
  rewrite lookup_insert_ne by done. rewrite Hr.
  assert (Ht : truthy (VRecords (l1 ++ p :: l2)) = true)
    by (now destruct l1).
  rewrite Ht.
  assert (Hlast : last (records_of_type "progress" (l1 ++ p :: l2)) = Some p).
  { rewrite records_of_type_app.
    change (p :: l2) with ([p] ++ l2). rewrite records_of_type_app.
    rewrite (records_of_type_none _ l2 Hl2), app_nil_r.
    unfold records_of_type at 2. simpl. rewrite Hp. simpl.
    apply last_snoc. }
  rewrite Hlast. simpl. split; [reflexivity|]. split; now map_lookup.
Qed.

Lemma last_progress_record_wins_witness :
  returned (snd (get_task_data broker_partial 0 "t1" one_task)) !! "progress"
    = Some (VInt 70).
Proof.
  apply (last_progress_record_wins broker_partial 0 "t1" one_task "RUNNING"
           {[ "results" := VRecords [prog40; url1; prog70; url1] ]}
           [prog40; url1] prog70 [url1] eq_refl eq_refl eq_refl).
  - repeat constructor; discriminate.
  - reflexivity.
Defined.

(** X5: a list payload always gives a ready snapshot with [progress]
    100 and a [state] of SUCCESS or FAILURE, whatever state the broker
    reports for the task. *)
Theorem list_payload_is_final (B : broker) c k (m : IdsMap) st l :
  B c k = mk_AsyncResult true (Got st) (Got (PList l)) ->
  l = [] \/ is_Some (deref m k !! "name") ->
  returns_snapshot (snd (get_task_data B c k m)) = true /\
  is_ready (returned (snd (get_task_data B c k m))) /\
  returned (snd (get_task_data B c k m)) !! "progress" = Some (VInt 100) /\
  (returned (snd (get_task_data B c k m)) !! "state" = Some (VStr "SUCCESS") \/
   returned (snd (get_task_data B c k m)) !! "state" = Some (VStr "FAILURE")).
Proof.
  intros HB Hl. unfold get_task_data. fold (deref m k). rewrite HB.
  rewrite (get_task_data_body_list st l _ Hl). simpl.
  split; [reflexivity|]. unfold is_ready.
  split; [now map_lookup|]. split; [now map_lookup|].
  destruct (records_of_type "error" l); [left|right]; now map_lookup.
Qed.

Lemma list_payload_is_final_witness :
  is_ready (returned (snd (get_task_data
    (fun _ _ => mk_AsyncResult true (Got "PENDING") (Got (PList [])))
    0 "t1" bare_task))).
Proof.
  apply (list_payload_is_final
           (fun _ _ => mk_AsyncResult true (Got "PENDING") (Got (PList [])))
           0 "t1" bare_task "PENDING" [] eq_refl).
  now left.
Defined.

(** ** What a pass yields *)

(** A returned snapshot has [results]. *)
Lemma get_task_data_body_results res data data' :
  get_task_data_body res data = (data', Return true) ->
  is_Some (data' !! "results").
Proof.
  assert (Hsus : forall st, is_Some (set_up_state st data !! "results")).
  { intros st. unfold set_up_state. rewrite lookup_insert_eq. eauto. }
  assert (Hsrp : forall d, is_Some (d !! "results") ->
            set_ready_and_progress d = (data', Return true) ->
            is_Some (data' !! "results")).
  { intros d Hd H.
    now rewrite (set_ready_and_progress_frame _ _ _ "results" H). }
  unfold get_task_data_body.
  destruct (negb (res_truthy res)); [congruence|].
  destruct (state res) as [st|]; [|congruence].
  destruct (info res) as [[e|l|i|]|]; try congruence.
  - assert (Hl : forall n s,
      set_ready_and_progress
        (<["state" := VStr s]> (<["count" := VInt n]>
           (<["results" := VRecords l]> (set_up_state st data))))
        = (data', Return true) -> is_Some (data' !! "results")).
    { intros n s. apply Hsrp. map_lookup. eauto. }
    destruct l as [|r l]; [apply Hl|].
    destruct (_ !! "name"); [apply Hl|congruence].
  - apply Hsrp. apply lookup_union_is_Some. right. apply Hsus.
  - apply Hsrp, Hsus.
Qed.

Lemma get_task_data_snapshot_keys (B : broker) c k (m m' : IdsMap) d :
  get_task_data B c k m = (m', Return (Some d)) ->
  is_Some (d !! "state") /\ is_Some (d !! "ready") /\ is_Some (d !! "results").
Proof.
  unfold get_task_data.
  destruct (get_task_data_body _ _) as [d' [[|]|e]] eqn:Hb; try congruence.
  intros H. injection H as _ <-.
  pose proof (get_task_data_body_results _ _ _ Hb) as Hres.
  apply get_task_data_body_return in Hb as [d0 Hd0].
  pose proof (set_ready_and_progress_frame _ _ _ "state" Hd0) as Hst.
  apply set_ready_and_progress_return in Hd0 as (_ & st & Hs & Hr & _).
  rewrite Hst, Hs, Hr by done. eauto.
Qed.

Lemma poll_debug_args_keys d :
  poll_debug_args d = Return tt ->
  is_Some (d !! "id") /\ is_Some (d !! "full_name") /\ is_Some (d !! "count").
Proof.
  unfold poll_debug_args.
  destruct (d !! "id"); [|discriminate].
  destruct (d !! "full_name"); [|discriminate].
  destruct (d !! "state"); [|discriminate].
  destruct (d !! "count"); [|discriminate]. eauto.
Qed.

Lemma poll_tasks_keys (B : broker) ids :
  forall (m : IdsMap) c datas evs m' c' ds r,
  poll_tasks B ids m c datas = (evs, m', c', ds, r) ->
  Forall (fun e => has_poll_keys (ev_data e)) evs.
Proof.
  induction ids as [|k ids IH]; intros m c datas evs m' c' ds r H; simpl in H.
  - injection H as <- _ _ _ _. constructor.
  - destruct (get_task_data B c k m) as [m1 r1] eqn:Hg.
    destruct r1 as [[d|]|e].
    + destruct (bool_decide (d = ∅)); [eauto|].
      destruct (poll_debug_args d) as [[]|x] eqn:Hdbg.
      * destruct (poll_tasks B ids m1 (S c) (datas ++ [k]))
          as [[[[evs2 m2] c2] ds2] r2] eqn:Hrest.
        injection H as <- _ _ _ _. constructor; [|eauto].
        apply get_task_data_snapshot_keys in Hg as (Hs & Hr & Hres).
        apply poll_debug_args_keys in Hdbg as (Hid & Hfn & Hcnt).
        unfold has_poll_keys. simpl. repeat constructor; assumption.
      * injection H as <- _ _ _ _. constructor.
    + eauto.
    + injection H as <- _ _ _ _. constructor.
Qed.

Lemma has_poll_keys_insert key v d :
  has_poll_keys d -> has_poll_keys (<[key := v]> d).
Proof.
  unfold has_poll_keys. rewrite !Forall_forall. intros H x Hx.
  apply lookup_insert_is_Some'. right. now apply H.
Qed.

Lemma get_all_data_well_formed (B : broker) (m : IdsMap) c evs m' c' r :
  get_all_data B m c = (evs, m', c', r) -> Forall well_formed_event evs.
Proof.
  intros H.
  assert (Hper : forall evs0 m0 c0 ds r0,
            poll_tasks B (ids_keys m) m c [] = (evs0, m0, c0, ds, r0) ->
            Forall well_formed_event evs0).
  { intros evs0 m0 c0 ds r0 Hp.
    pose proof (poll_tasks_keys _ _ _ _ _ _ _ _ _ _ Hp) as Hk.
    pose proof (poll_tasks_shape _ _ _ _ _ _ _ _ _ _ Hp) as (_ & Hs & _).
    rewrite Forall_forall in *. intros e He. split; [now apply Hk|].
    intros Ha. rewrite (Hs e He) in Ha. discriminate. }
  destruct r as [[]|x].
  - apply get_all_data_complete in H as (evs0 & m0 & Hp & Hcase).
    specialize (Hper _ _ _ _ _ Hp).
    destruct Hcase as [(_ & -> & _)|(snaps & k & d & -> & _ & _ & -> & _)];
      [constructor|].
    apply Forall_app. split; [exact Hper|].
    apply Forall_app in Hper as [_ Hd]. inversion Hd as [|? ? [Hkeys _] _]; subst.
    constructor; [|constructor]. split; simpl.
    + now apply has_poll_keys_insert.
    + intros _. rewrite lookup_insert_eq. eauto.
  - unfold get_all_data in H.
    destruct (poll_tasks B (ids_keys m) m c [])
      as [[[[evs0 m0] c0] ds] r0] eqn:Hp.
    specialize (Hper _ _ _ _ _ eq_refl).
    destruct r0 as [[]|y].
    + destruct (last ds); congruence.
    + injection H as <- _ _ _. exact Hper.
Qed.

(** A property of the dicts of every pass holds for all the dicts of a
    run. *)
Lemma poll_events_Forall (P : event -> Prop) (B : broker) :
  (forall m c evs m' c' r,
     get_all_data B m c = (evs, m', c', r) -> Forall P evs) ->
  forall fuel (R : root_ready) (m : IdsMap) c,
    Forall P (events_of (poll fuel B R m c)).
Proof.
  intros Hpass fuel R. induction fuel as [|fuel IH]; intros m c.
  - constructor.
  - assert (Hpre : forall evs m1 c1, Forall P evs ->
              Forall P (events_of (prepend evs (poll fuel B R m1 c1)))).
    { intros evs m1 c1 He. specialize (IH m1 c1). unfold prepend.
      destruct (poll fuel B R m1 c1) as [[[evs' ?] ?] ?].
      unfold events_of in *. simpl in *. apply Forall_app. auto. }
    rewrite poll_S.
    destruct (get_all_data B m c) as [[[ev1 m1] c1] r1] eqn:E1.
    pose proof (Hpass _ _ _ _ _ _ E1) as H1.
    destruct r1 as [[]|e1].
    + destruct (R c1) as [[|]|]; auto.
      destruct (get_all_data B m1 (S c1)) as [[[ev2 m2] c2] r2] eqn:E2.
      pose proof (Hpass _ _ _ _ _ _ E2) as H2.
      assert (H12 : Forall P (ev1 ++ ev2)) by (apply Forall_app; auto).
      destruct r2 as [[]|e2]; [exact H12|].
      destruct e2; auto.
    + destruct e1; auto.
Qed.

Lemma merge_results_no_KeyError evs :
  Forall well_formed_event evs ->
  snd (merge_results evs) <> Raise (KeyError "results").
Proof.
  induction evs as [|e evs IH]; intros H; simpl; [discriminate|].
  inversion H as [|? ? [Hk _] Hrest]; subst.
  unfold has_poll_keys in Hk. rewrite Forall_forall in Hk.
  destruct (Hk "results") as [v ->]; [set_solver|].
  destruct v; simpl; try discriminate.
  - destruct (merge_results evs) as [s' r'] eqn:E. simpl. now apply IH.
  - destruct (merge_results evs) as [s' r'] eqn:E. simpl. now apply IH.
Qed.

(** X6: every dict that [poll] yields has the keys id, full_name, state,
    count, ready and results, and every aggregate has an integer
    [progress]; so reading [data['results']] in [iter_results] never
    raises KeyError. *)
Theorem yielded_dicts_have_keys fuel (B : broker) (R : root_ready)
    (m : IdsMap) c :
  Forall well_formed_event (events_of (poll fuel B R m c)) /\
  snd (merge_results (events_of (poll fuel B R m c))) <>
    Raise (KeyError "results").
Proof.
  assert (H : Forall well_formed_event (events_of (poll fuel B R m c))).
  { apply poll_events_Forall. intros. eapply get_all_data_well_formed; eauto. }
  split; [exact H|]. now apply merge_results_no_KeyError.
Qed.

(** A completed loop makes one broker access per identifier, and the
    objects it yields are those of identifiers of the list, in order. *)
Lemma poll_tasks_accounting (B : broker) ids :
  forall (m : IdsMap) c datas evs m' c' ds r,
  poll_tasks B ids m c datas = (evs, m', c', ds, r) ->
  map ev_ref evs `sublist_of` ids /\
  (r = Return tt -> c' = (c + length ids)%nat).
Proof.
  induction ids as [|k ids IH]; intros m c datas evs m' c' ds r H; simpl in H.
  - injection H as <- _ <- _ _. split; [apply sublist_nil_l|intros; simpl; lia].
  - destruct (get_task_data B c k m) as [m1 r1] eqn:Hg.
    assert (Hskip : poll_tasks B ids m1 (S c) datas = (evs, m', c', ds, r) ->
      map ev_ref evs `sublist_of` k :: ids /\
      (r = Return tt -> c' = (c + length (k :: ids))%nat)).
    { intros H'. apply IH in H' as [H1 H2]. split; [now constructor|].
      intros Hr. rewrite (H2 Hr). simpl. lia. }
    destruct r1 as [[d|]|e].
    + destruct (bool_decide (d = ∅)); [auto|].
      destruct (poll_debug_args d).
      * destruct (poll_tasks B ids m1 (S c) (datas ++ [k]))
          as [[[[evs2 m2] c2] ds2] r2] eqn:Hrest.
        injection H as <- _ <- _ <-. apply IH in Hrest as [H1 H2].
        split; [simpl; now constructor|].
        intros Hr. rewrite (H2 Hr). simpl. lia.
      * injection H as <- _ _ _ <-. split; [apply sublist_nil_l|discriminate].
    + auto.
    + injection H as <- _ _ _ <-. split; [apply sublist_nil_l|discriminate].
Qed.

Lemma filter_Forall_id {A} (P : A -> Prop) `{forall x, Decision (P x)} l :
  Forall P l -> filter P l = l.
Proof.
  induction 1 as [|x l Hx Hl IH]; [reflexivity|].
  rewrite filter_cons, decide_True by assumption. now rewrite IH.
Qed.

Lemma length_filter_all {A} (P : A -> Prop) `{forall x, Decision (P x)} l :
  length (filter P l) = length l <-> Forall P l.
Proof.
  split; [|intros Hl; now rewrite filter_Forall_id].
  induction l as [|x l IH]; [constructor|].
  rewrite filter_cons. destruct (decide (P x)) as [Hx|Hx]; simpl.
  - intros Hl. constructor; [assumption|]. apply IH. lia.
  - pose proof (length_filter P l). lia.
Qed.

(** X7: a completed pass makes exactly one broker access per
    identifier of [ids_map], keeps the identifiers of [ids_map] as they
    are, yields per-task dicts only for identifiers of [ids_map], at most
    once each and in the order of [ids_map], and yields at most one dict
    more than there are identifiers. *)
Theorem pass_accounting (B : broker) (m : IdsMap) c evs m' c' :
  get_all_data B m c = (evs, m', c', Return tt) ->
  c' = (c + length (ids_keys m))%nat /\
  ids_keys m' = ids_keys m /\
  map ev_ref (filter (fun e => ev_site e = PerTask) evs)
    `sublist_of` ids_keys m /\
  (length evs <= S (length (ids_keys m)))%nat.
Proof.
  intros H. apply get_all_data_complete in H as (evs0 & m0 & Hp & Hcase).
  pose proof (poll_tasks_accounting _ _ _ _ _ _ _ _ _ _ Hp) as [Hsub Hc].
  pose proof (poll_tasks_shape _ _ _ _ _ _ _ _ _ _ Hp)
    as (_ & Hsite & Hkeys & _ & _).
  split; [now apply Hc|].
  pose proof (sublist_length _ _ Hsub) as Hlen. rewrite length_map in Hlen.
  destruct Hcase as [(-> & -> & ->)|(snaps & k & d & He & _ & _ & -> & ->)].
  - split; [exact Hkeys|]. split; [apply sublist_nil_l|simpl; lia].
  - split; [now rewrite ids_keys_set|]. split.
    + rewrite filter_app, (filter_Forall_id _ _ Hsite).
      rewrite filter_cons, decide_False by discriminate.
      rewrite filter_nil, app_nil_r. exact Hsub.
    + rewrite length_app. simpl. lia.
Qed.

Lemma pass_accounting_witness :
  snd (fst (get_all_data broker_mixed two_tasks 5)) = 7%nat.
Proof.
  assert (Hr : snd (get_all_data broker_mixed two_tasks 5) = Return tt)
    by (vm_compute; reflexivity).
  destruct (get_all_data broker_mixed two_tasks 5) as [[[evs m'] c'] r] eqn:E.
  simpl in *. subst r.
  now destruct (pass_accounting _ _ _ _ _ _ E) as [-> _].
Defined.

(** X8: the [progress] of an aggregate is an integer between 0 and 100,
    and it is 100 exactly when all the per-task snapshots of the pass are
    ready. *)
Theorem aggregate_progress_bounds (B : broker) (m : IdsMap) c evs m' c' k d :
  List.NoDup (ids_keys m) ->
  get_all_data B m c = (evs, m', c', Return tt) ->
  last evs = Some (Yield Aggregate k d) ->
  exists pct,
    d !! "progress" = Some (VInt pct) /\
    (0 <= pct <= 100)%Z /\
    (pct = 100%Z <->
     Forall (fun e => ev_site e = PerTask -> is_ready (ev_data e)) evs).
Proof.
  intros Hnd H Hlast.
  apply get_all_data_complete in H as (evs0 & m0 & Hp & Hcase).
  destruct Hcase as [(_ & -> & _)|(snaps & k0 & d0 & He & _ & _ & -> & _)];
    [discriminate|].
  rewrite last_snoc in Hlast. injection Hlast as <- <-.
  pose proof (poll_tasks_shape _ _ _ _ _ _ _ _ _ _ Hp) as (_ & Hsite & _).
  pose proof (poll_tasks_snapshots _ _ _ _ _ _ _ _ _ _ Hp Hnd (fun _ H => H))
    as [_ Hsn].
  rewrite (count_finished_spec _ _ Hsn).
  set (n := Z.of_nat (length (ready_snapshots evs0))).
  set (t := Z.of_nat (length evs0)).
  assert (Ht : (1 <= t)%Z).
  { subst t. rewrite He, length_app. simpl. lia. }
  assert (Hn : (0 <= n <= t)%Z).
  { subst n t. unfold ready_snapshots.
    pose proof (length_filter (fun e => is_ready (ev_data e)) evs0). lia. }
  assert (Hpct : percent_of n (length evs0) = (n * 100 / t)%Z).
  { unfold percent_of. fold t.
    destruct (0 <? t)%Z eqn:E; [reflexivity|]. apply Z.ltb_ge in E. lia. }
  rewrite Hpct. exists (n * 100 / t)%Z.
  split; [now rewrite lookup_insert_eq|]. split.
  - split; [apply Z.div_pos; lia|].
    apply Z.div_le_upper_bound; lia.
  - assert (Hiff : (n * 100 / t)%Z = 100%Z <-> n = t).
    { split.
      - intros Hq. destruct (decide (n = t)) as [|Hne]; [assumption|].
        assert (n * 100 / t < 100)%Z
          by (apply Z.div_lt_upper_bound; lia). lia.
      - intros ->. rewrite Z.mul_comm. apply Z.div_mul. lia. }
    rewrite Hiff. subst n t.
    assert (Hlen : Z.of_nat (length (ready_snapshots evs0)) =
                   Z.of_nat (length evs0) <->
                   Forall (fun e => is_ready (ev_data e)) evs0).
    { rewrite <- (length_filter_all (fun e => is_ready (ev_data e)) evs0).
      unfold ready_snapshots. lia. }
    rewrite Hlen. rewrite Forall_app. split.
    + intros Hall. split.
      * eapply Forall_impl; [exact Hall|]. auto.
      * constructor; [intros Hs; discriminate|constructor].
    + intros [Hall _]. rewrite Forall_forall in *.
      intros e Hin. apply (Hall e Hin). now apply Hsite.
Qed.

Lemma aggregate_progress_bounds_witness :
  exists k d pct,
    last (fst (fst (fst (get_all_data broker_mixed two_tasks 0)))) =
      Some (Yield Aggregate k d) /\
    d !! "progress" = Some (VInt pct) /\ (0 <= pct <= 100)%Z.
Proof.
  assert (Hr : snd (get_all_data broker_mixed two_tasks 0) = Return tt)
    by (vm_compute; reflexivity).
  assert (Hs : (ev_site <$>
                last (fst (fst (fst (get_all_data broker_mixed two_tasks 0)))))
               = Some Aggregate)
    by (vm_compute; reflexivity).
  destruct (get_all_data broker_mixed two_tasks 0) as [[[evs m'] c'] r] eqn:E.
  simpl in *. subst r.
  destruct (last evs) as [[s k d]|] eqn:El; [|discriminate].
  simpl in Hs. injection Hs as ->.
  destruct (aggregate_progress_bounds broker_mixed two_tasks 0 evs m' c' k d)
    as (pct & H1 & H2 & _); auto.
  - unfold two_tasks, ids_keys. simpl.
    apply List.NoDup_cons; [intros [H|[]]; discriminate|].
    apply List.NoDup_cons; [intros []|]. apply List.NoDup_nil.
  - exists k, d, pct. auto.
Defined.

Lemma get_task_data_falsy (B : broker) c k (m : IdsMap) :
  res_truthy (B c k) = false -> get_task_data B c k m = (m, Return None).
Proof.
  intros H. unfold get_task_data. fold (deref m k).
  rewrite (get_task_data_body_falsy _ _ H). now rewrite ids_set_same.
Qed.

Lemma poll_tasks_falsy (B : broker) ids :
  forall (m : IdsMap) c datas,
  (forall n k, In k ids -> res_truthy (B n k) = false) ->
  poll_tasks B ids m c datas =
  ([], m, (c + length ids)%nat, datas, Return tt).
Proof.
  induction ids as [|k ids IH]; intros m c datas H; simpl.
  - now rewrite Nat.add_0_r.
  - rewrite (get_task_data_falsy B c k m) by (apply H; now left).
    rewrite IH by (intros; apply H; now right).
    now replace (S c + length ids)%nat with (c + S (length ids))%nat by lia.
Qed.

(** X9: when no identifier of [ids_map] has a handle that counts as
    true (in particular when [ids_map] is empty), a pass yields nothing,
    not even an aggregate, and leaves [ids_map] as it was; with a root
    that reports ready [poll] then ends in its first iteration without
    having yielded anything. *)
Theorem falsy_handles_yield_nothing (B : broker) (R : root_ready)
    (m : IdsMap) c :
  (forall n k, In k (ids_keys m) -> res_truthy (B n k) = false) ->
  get_all_data B m c = ([], m, (c + length (ids_keys m))%nat, Return tt) /\
  (R (c + length (ids_keys m))%nat = Got true ->
   forall fuel,
     poll (S fuel) B R m c =
     ([], m, (S (c + length (ids_keys m)) + length (ids_keys m))%nat,
      Finished)).
Proof.
  intros H.
  assert (Hall : forall c0,
    get_all_data B m c0 = ([], m, (c0 + length (ids_keys m))%nat, Return tt)).
  { intros c0. unfold get_all_data. now rewrite (poll_tasks_falsy B _ m c0 [] H). }
  split; [apply Hall|].
  intros HR fuel. now rewrite poll_S, Hall, HR, Hall.
Qed.

Lemma falsy_handles_yield_nothing_witness :
  poll 1 broker_absent always_ready two_tasks 0 = ([], two_tasks, 5%nat, Finished).
Proof.
  destruct (falsy_handles_yield_nothing broker_absent always_ready two_tasks 0)
    as [_ H].
  - intros n k _. reflexivity.
  - apply (H eq_refl 0%nat).
Defined.

(** ** Runs of the loop *)

Lemma get_all_data_keys (B : broker) (m : IdsMap) c evs m' c' r :
  get_all_data B m c = (evs, m', c', r) -> ids_keys m' = ids_keys m.
Proof.
  unfold get_all_data.
  destruct (poll_tasks B (ids_keys m) m c []) as [[[[evs0 m0] c0] ds] r0] eqn:Hp.
  pose proof (poll_tasks_shape _ _ _ _ _ _ _ _ _ _ Hp) as (_ & _ & Hk & _).
  destruct r0 as [[]|x].
  - destruct (last ds).
    + intros H. injection H as _ <- _ _. now rewrite ids_keys_set.
    + intros H. now injection H as _ <- _ _.
  - intros H. now injection H as _ <- _ _.
Qed.

(** X10: [poll] never adds, removes or reorders the identifiers of
    [ids_map], however long it runs and however it ends. *)
Theorem poll_keeps_identifiers fuel (B : broker) (R : root_ready)
    (m : IdsMap) c :
  ids_keys (store_of (poll fuel B R m c)) = ids_keys m.
Proof.
  revert m c. induction fuel as [|fuel IH]; intros m c; [reflexivity|].
  assert (Hpre : forall evs m1 c1,
            ids_keys m1 = ids_keys m ->
            ids_keys (store_of (prepend evs (poll fuel B R m1 c1))) =
            ids_keys m).
  { intros evs m1 c1 Hk. specialize (IH m1 c1). unfold prepend.
    destruct (poll fuel B R m1 c1) as [[[? ?] ?] ?].
    unfold store_of in *. simpl in *. congruence. }
  rewrite poll_S.
  destruct (get_all_data B m c) as [[[ev1 m1] c1] r1] eqn:E1.
  pose proof (get_all_data_keys _ _ _ _ _ _ _ E1) as K1.
  destruct r1 as [[]|e1].
  - destruct (R c1) as [[|]|]; auto.
    destruct (get_all_data B m1 (S c1)) as [[[ev2 m2] c2] r2] eqn:E2.
    pose proof (get_all_data_keys _ _ _ _ _ _ _ E2) as K2.
    assert (K : ids_keys m2 = ids_keys m) by congruence.
    destruct r2 as [[]|e2]; [exact K|]. destruct e2; auto.
  - destruct e1; auto.
Qed.




(** ** More on the tree walker *)







(** ** The progress renderer *)

Lemma state_label_Return colors state label :
  state_label colors state = Return label ->
  exists s colour,
    state = VStr s /\ colors !! s = Some colour /\
    label = VStr ("[" +:+ colour +:+ "]" +:+ s +:+ "[/]").
Proof.
  unfold state_label, lookup_value.
  destruct state as [| [|] | z | s | r | l]; try discriminate.
  destruct (colors !! s) as [colour|] eqn:E; [|discriminate].
  intros H. injection H as <-. eauto.
Qed.


Lemma cache_set_fresh cache k id :
  ~ In k (map fst cache) -> cache_set cache k id = cache ++ [(k, id)].
Proof.
  induction cache as [|[k' id'] cache IH]; simpl; [reflexivity|].
  intros H. destruct (String.eqb_spec k' k) as [->|Hne]; [tauto|].
  rewrite IH by tauto. reflexivity.
Qed.

Lemma init_progress_loop_entries colors new_id items :
  forall log cache log' cache',
  init_progress_loop colors new_id items log cache = (log', Return cache') ->
  List.NoDup (map fst cache ++ ids_keys items) ->
  map fst cache' = map fst cache ++ ids_keys items /\
  exists added,
    log' = log ++ added /\
    Forall2 (fun kd call => entry_for colors (snd kd) call) items added.
Proof.
  induction items as [|[k d] items IH]; intros log cache log' cache' H Hnd;
    simpl in H.
  - injection H as <- <-. rewrite app_nil_r. split; [reflexivity|].
    exists []. rewrite app_nil_r. split; [reflexivity|constructor].
  - destruct (d !! "state") as [state|] eqn:Es; [|discriminate].
    destruct (state_label colors state) as [label|] eqn:El; [|discriminate].
    apply state_label_Return in El as (s & colour & -> & Hc & ->).
    unfold add_task in H. rewrite lookup_insert_ne in H by done.
    destruct (d !! "advance") eqn:Ea; [discriminate|].
    assert (Hk : ~ In k (map fst cache)).
    { intros Hin. apply List.NoDup_remove_2 in Hnd. apply Hnd.
      apply in_or_app. now left. }
    rewrite (cache_set_fresh _ _ _ Hk) in H.
    apply IH in H as (Hkeys & added & -> & Hadd).
    + split.
      * rewrite Hkeys, map_app. simpl. now rewrite <- app_assoc.
      * eexists (_ :: added). split; [now rewrite <- app_assoc|].
        constructor; [|exact Hadd].
        exists (<["advance" := VInt 0]>
                  (<["state" := VStr ("[" +:+ colour +:+ "]" +:+ s +:+ "[/]")]> d)),
               s, colour.
        simpl. repeat split; auto.
        -- now map_lookup.
        -- now map_lookup.
        -- intros key K1 K2. now rewrite !lookup_insert_ne.
    + rewrite map_app. simpl. rewrite <- app_assoc. exact Hnd.
Qed.

(** X14: when [init_progress] returns, the cache has the identifiers of
    [ids_map] as its keys, in the same order, and the renderer has
    received one [add_task] per descriptor, in that order, each with the
    descriptor's keys as keyword arguments, [state] replaced by its
    coloured label and [advance] 0. *)
Theorem init_progress_entries colors new_id (ids_map : IdsMap) log log' cache :
  init_progress colors new_id ids_map log = (log', Return cache) ->
  List.NoDup (ids_keys ids_map) ->
  map fst cache = ids_keys ids_map /\
  exists added,
    log' = log ++ added /\
    Forall2 (fun kd call => entry_for colors (snd kd) call) ids_map added.
Proof.
  intros H Hnd. now apply (init_progress_loop_entries _ _ _ _ [] _ _ H).
Qed.

Lemma init_progress_entries_witness :
  map fst (match snd (init_progress sample_colors count_entries two_tasks [])
           with Return cache => cache | Raise _ => [] end) = ["t1"; "t2"].
Proof.
  destruct (init_progress sample_colors count_entries two_tasks [])
    as [log' [cache|e]] eqn:E.
  - destruct (init_progress_entries _ _ _ _ _ _ E) as [H _]; [|exact H].
    unfold two_tasks, ids_keys. simpl.
    apply List.NoDup_cons; [intros [H|[]]; discriminate|].
    apply List.NoDup_cons; [intros []|]. apply List.NoDup_nil.
  - exfalso. apply (f_equal snd) in E. vm_compute in E. discriminate.
Defined.






(** The loop body with the renderer yields a part of what the loop
    without it yields, and all of it when it does not raise. *)
Lemma consume_merge_results colors cache evs :
  forall log s log' r,
  consume colors cache evs log = (s, log', r) ->
  s `prefix_of` fst (merge_results evs) /\
  (r = Return tt -> merge_results evs = (s, Return tt)).
Proof.
  induction evs as [|e evs IH]; intros log s log' r H; simpl in *.
  - injection H as <- _ <-. split; [reflexivity|auto].
  - destruct (ev_data e !! "results") as [v|].
    2:{ injection H as <- _ <-. split; [reflexivity|discriminate]. }
    destruct (yield_from v) as [items|x].
    2:{ injection H as <- _ <-. split; [reflexivity|discriminate]. }
    assert (Hstop : forall x0 log0,
      (items, log0, @Raise unit x0) = (s, log', r) ->
      s `prefix_of` fst (let '(s0, r0) := merge_results evs in
                         (items ++ s0, r0)) /\
      (r = Return tt ->
       (let '(s0, r0) := merge_results evs in (items ++ s0, r0)) =
       (s, Return tt))).
    { intros x0 log0 Heq. injection Heq as <- _ <-.
      split; [|discriminate].
      destruct (merge_results evs). simpl. now apply prefix_app_r. }
    destruct (ev_data e !! "id") as [task_id|]; [|now eapply Hstop; eauto].
    destruct (lookup_value (cache_get cache) task_id) as [pid|x];
      [|now eapply Hstop; eauto].
    destruct (update_progress colors pid (ev_data e) log) as [log1 [[]|x]];
      [|now eapply Hstop; eauto].
    destruct (consume colors cache evs log1) as [[s1 log2] r1] eqn:E.
    injection H as <- <- <-.
    destruct (IH _ _ _ _ E) as [Hp Hr].
    destruct (merge_results evs) as [s0 r0]. simpl in *. split.
    + now apply prefix_app.
    + intros ->. specialize (Hr eq_refl). now injection Hr as <- <-.
Qed.

(** X17: with [print_remote_info] set, [iter_results] yields a leading
    part of the record stream it yields without it; when it ends
    normally it has yielded the whole stream, and the last calls the
    renderer received are an update with [advance] 100 for every entry
    created at the start, in order. *)
Theorem live_stream_and_completion colors new_id fuel (B : broker)
    (R : root_ready) (ids_map : IdsMap) clock s log e :
  iter_results_live colors new_id fuel B R ids_map clock = (s, log, e) ->
  s `prefix_of` fst (iter_results fuel B R ids_map clock) /\
  (e = Finished ->
   iter_results fuel B R ids_map clock = (s, Finished) /\
   exists log0 cache,
     snd (init_progress colors new_id ids_map []) = Return cache /\
     log = log0 ++
           map (fun kv => Update (snd kv) {[ "advance" := VInt 100 ]}) cache).
Proof.
  unfold iter_results_live, iter_results.
  destruct (init_progress colors new_id ids_map []) as [log1 [cache|x]].
  2:{ intros H. injection H as <- _ <-.
      split; [apply prefix_nil|discriminate]. }
  destruct (poll fuel B R ids_map clock) as [[[evs m'] c'] e0].
  destruct (consume colors cache evs log1) as [[s1 log2] r] eqn:E.
  destruct (consume_merge_results _ _ _ _ _ _ _ E) as [Hp Hr].
  destruct r as [[]|x].
  - specialize (Hr eq_refl). rewrite Hr in *. simpl in *.
    destruct e0 as [|x|]; intros H; injection H as <- <- <-;
      (split; [reflexivity|]); try discriminate.
    intros _. split; [reflexivity|]. exists log2, cache. auto.
  - intros H. injection H as <- _ <-. split; [|discriminate].
    destruct (merge_results evs) as [s0 [[]|y]]; exact Hp.
Qed.

Lemma live_stream_and_completion_witness :
  iter_results 1 broker_finished always_ready one_task 0 =
  (fst (fst (iter_results_live sample_colors count_entries 1 broker_finished
               always_ready one_task 0)), Finished).
Proof.
  assert (He : snd (iter_results_live sample_colors count_entries 1
                      broker_finished always_ready one_task 0) = Finished)
    by (vm_compute; reflexivity).
  destruct (iter_results_live sample_colors count_entries 1 broker_finished
              always_ready one_task 0) as [[s log] e] eqn:E.
  simpl in *.
  now destruct (live_stream_and_completion _ _ _ _ _ _ _ _ _ _ E)
    as [_ [-> _]].
Defined.
